(** * Staff allotment: allocation engine, requirement aggregator and
      configuration store of [desktop_app.py], embedded in Rocq.

    Python values are modelled as follows.
    - [str] is [string], holding the UTF-8 bytes of the text.  [str.strip]
      removes every character [str.isspace] accepts, ASCII or not;
      [str.upper] is written out for the ASCII letters and leaves every
      other byte as it is.
    - a staff record (a dict with keys [staff_name], [staff_dept],
      [staff_gender]) and a room requirement (keys [room_no], [girls_only],
      [single_staff]) are records with exactly those fields, so a record with
      a missing key is not a value of the type.
    - an exception is a value [Raise e] of the [result] type; [try]/[except]
      is a match on it.
    - [dict] is [gmap], [set] is [gset]; a JSON-like value whose keys are
      inspected one by one ([validate_config]) lists its items in order.
    - the outside world (the JSON files under [data/], the random generator)
      is passed in explicitly. *)

From stdpp Require Import gmap strings list sorting.
From Stdlib Require Import ZArith Ascii.

Local Open Scope string_scope.
Local Open Scope list_scope.

(** ** Python exceptions as results *)

Module Py.

Inductive exn : Type :=
| ValueError        (* list.remove(x): x not in list *)
| ReadFailure.      (* open / json.load / set(...) failed *)

Inductive result (A : Type) : Type :=
| Ok (a : A)
| Raise (e : exn).

Arguments Ok {A} a.
Arguments Raise {A} e.

Definition bind {A B : Type} (m : result A) (k : A → result B) : result B :=
  match m with
  | Ok a => k a
  | Raise e => Raise e
  end.

(** [str.upper] on ASCII: the letters a..z move to A..Z. *)
Definition upper_char (c : ascii) : ascii :=
  let n := nat_of_ascii c in
  if Nat.leb 97 n && Nat.leb n 122 then ascii_of_nat (n - 32) else c.

Fixpoint upper (s : string) : string :=
  match s with
  | EmptyString => EmptyString
  | String c s' => String (upper_char c) (upper s')
  end.

(** A [string] holds the UTF-8 bytes of a Python [str]. *)
Definition bytes (codes : list nat) : string :=
  foldr (λ n s, String (ascii_of_nat n) s) EmptyString codes.

(** The characters [str.isspace] accepts, which are the ones [str.strip()]
    removes, each as its UTF-8 encoding. *)
Definition white_space : list string :=
  [ bytes [9]; bytes [10]; bytes [11]; bytes [12]; bytes [13];  (* U+0009..U+000D *)
    bytes [28]; bytes [29]; bytes [30]; bytes [31];             (* U+001C..U+001F *)
    bytes [32];                                                 (* U+0020 *)
    bytes [194; 133];                                           (* U+0085 *)
    bytes [194; 160];                                           (* U+00A0 *)
    bytes [225; 154; 128];                                      (* U+1680 *)
    bytes [226; 128; 128]; bytes [226; 128; 129];               (* U+2000, U+2001 *)
    bytes [226; 128; 130]; bytes [226; 128; 131];               (* U+2002, U+2003 *)
    bytes [226; 128; 132]; bytes [226; 128; 133];               (* U+2004, U+2005 *)
    bytes [226; 128; 134]; bytes [226; 128; 135];               (* U+2006, U+2007 *)
    bytes [226; 128; 136]; bytes [226; 128; 137];               (* U+2008, U+2009 *)
    bytes [226; 128; 138];                                      (* U+200A *)
    bytes [226; 128; 168]; bytes [226; 128; 169];               (* U+2028, U+2029 *)
    bytes [226; 128; 175];                                      (* U+202F *)
    bytes [226; 129; 159];                                      (* U+205F *)
    bytes [227; 128; 128] ].                                    (* U+3000 *)

(** [ch] is the encoding of one white-space character. *)
Definition is_space (ch : string) : bool := bool_decide (ch ∈ white_space).

(** What follows the first character of [s] when that character is white
    space: it takes one, two or three bytes. *)
Definition space_head (s : string) : option string :=
  match s with
  | EmptyString => None
  | String c s1 =>
      if is_space (String c EmptyString) then Some s1
      else
        match s1 with
        | EmptyString => None
        | String d s2 =>
            if is_space (String c (String d EmptyString)) then Some s2
            else
              match s2 with
              | EmptyString => None
              | String e s3 =>
                  if is_space (String c (String d (String e EmptyString)))
                  then Some s3 else None
              end
        end
  end.

(** Leading white-space characters are dropped one by one. *)
Fixpoint lstrip (s : string) : string :=
  match s with
  | EmptyString => EmptyString
  | String c s1 =>
      if is_space (String c EmptyString) then lstrip s1
      else
        match s1 with
        | EmptyString => s
        | String d s2 =>
            if is_space (String c (String d EmptyString)) then lstrip s2
            else
              match s2 with
              | EmptyString => s
              | String e s3 =>
                  if is_space (String c (String d (String e EmptyString)))
                  then lstrip s3 else s
              end
        end
  end.

(** Trailing white-space characters are dropped from the end: going through
    the suffixes of [s] from the shortest, what is kept of a suffix is dropped
    as soon as, with the byte before it, it is one white-space character. *)
Fixpoint rstrip (s : string) : string :=
  match s with
  | EmptyString => EmptyString
  | String c s' =>
      let kept := String c (rstrip s') in
      if is_space kept then EmptyString else kept
  end.

(** [str.strip()] *)
Definition strip (s : string) : string := rstrip (lstrip s).

(** Strings made of white-space characters only. *)
Inductive all_space : string → Prop :=
| all_space_nil : all_space EmptyString
| all_space_cons (ch s : string) :
    ch ∈ white_space → all_space s → all_space (ch +:+ s).

(** [s] neither starts nor ends with a white-space character. *)
Definition trimmed (s : string) : Prop :=
  ∀ ch x, ch ∈ white_space → s ≠ ch +:+ x ∧ s ≠ x +:+ ch.

(** [core] is [name] without the white space around it. *)
Definition trimmed_name (name core : string) : Prop :=
  ∃ pre post,
    name = pre +:+ core +:+ post ∧ all_space pre ∧ all_space post
    ∧ trimmed core.

End Py.

Export Py.

Notation "x <- m ;; k" := (bind m (λ x, k))
  (at level 100, m at next level, right associativity, only parsing).

(** ** The allocation engine: [allocate_staff] *)

Module Engine.

Record Staff : Type := mkStaff {
  staff_name : string;
  staff_dept : string;
  staff_gender : string
}.

Record RoomRequirement : Type := mkRoom {
  room_no : string;
  girls_only : bool;
  single_staff : bool
}.

(** One entry of [allotments]: [{'room_no': ..., 'staff': selected_staff}]. *)
Record Assignment : Type := mkAssignment {
  a_room_no : string;
  staff : list Staff
}.

#[export] Instance Staff_eq_dec : EqDecision Staff.
Proof. solve_decision. Defined.

#[export] Instance RoomRequirement_eq_dec : EqDecision RoomRequirement.
Proof. solve_decision. Defined.

#[export] Instance Assignment_eq_dec : EqDecision Assignment.
Proof. solve_decision. Defined.

(** What [os.path.exists] / [open] / [json.load] find at
    [data/excluded_staff.json]. *)
Inductive excluded_file : Type :=
| FileAbsent                          (* os.path.exists(...) is False *)
| FileNames (names : list string)     (* a JSON list of names *)
| FileUnreadable.                     (* open, json.load or set(...) raises *)

(** [s.get('staff_gender', '').upper() in ['F', 'FEMALE']] *)
Definition is_female (s : Staff) : bool :=
  bool_decide (upper (staff_gender s) ∈ ["F"; "FEMALE"]).

(** [staff_list.remove(staff)]: drops the first element equal to [staff],
    raises [ValueError] when there is none. *)
Fixpoint list_remove (x : Staff) (l : list Staff) : result (list Staff) :=
  match l with
  | [] => Raise ValueError
  | y :: l' =>
      if decide (y = x) then Ok l'
      else l'' <- list_remove x l' ;; Ok (y :: l'')
  end.

(** The [while len(selected_staff) < staff_needed and eligible_staff:] loop.
    Each turn pops the head of [eligible_staff], so the recursion is on it. *)
Fixpoint select_loop (staff_needed : nat)
    (eligible_staff selected_staff staff_list : list Staff)
    : result (list Staff * list Staff) :=
  match eligible_staff with
  | [] => Ok (selected_staff, staff_list)
  | staff :: eligible_staff' =>
      if Nat.ltb (length selected_staff) staff_needed then
        staff_list' <- list_remove staff staff_list ;;
        select_loop staff_needed eligible_staff' (selected_staff ++ [staff]) staff_list'
      else Ok (selected_staff, staff_list)
  end.

(** The body of [for class_info in classes_list:], on the loop state
    [(allotments, staff_list)]. *)
Definition process_room (class_info : RoomRequirement)
    (st : list Assignment * list Staff) : result (list Assignment * list Staff) :=
  let '(allotments, staff_list) := st in
  let eligible_staff :=
    if girls_only class_info then filter (λ s, is_female s) staff_list
    else staff_list in
  let staff_needed := if single_staff class_info then 1 else 2 in
  picked <- select_loop staff_needed eligible_staff [] staff_list ;;
  let '(selected_staff, staff_list') := picked in
  match selected_staff with
  | [] => Ok (allotments, staff_list')
  | _ :: _ =>
      Ok (allotments ++ [mkAssignment (room_no class_info) selected_staff],
          staff_list')
  end.

Fixpoint for_rooms (classes_list : list RoomRequirement)
    (st : list Assignment * list Staff) : result (list Assignment * list Staff) :=
  match classes_list with
  | [] => Ok st
  | class_info :: rest => st' <- process_room class_info st ;; for_rooms rest st'
  end.

(** [allocate_staff(self, staff_list, classes_list, date)].  [shuffle] is the
    draw of [random.shuffle]; the [except Exception: ... raise] handler prints
    and re-raises, so a [Raise] goes through unchanged. *)
Definition allocate_staff (shuffle : list Staff → list Staff)
    (file : excluded_file) (staff_list : list Staff)
    (classes_list : list RoomRequirement) (date : string)
    : result (list Assignment) :=
  staff_list <-
    match file with
    | FileAbsent => Ok staff_list
    | FileNames names =>
        let excluded_staff : gset string := list_to_set names in
        Ok (filter (λ s, strip (staff_name s) ∉ excluded_staff) staff_list)
    | FileUnreadable => Raise ReadFailure
    end ;;
  let staff_list := shuffle staff_list in
  let allotments : list Assignment := [] in
  final <- for_rooms classes_list (allotments, staff_list) ;;
  let '(allotments, _) := final in
  Ok allotments.

(** *** The greedy policy, room by room

    The same run written as the policy reads: for each requirement, in list
    order, the front of the eligible part of the current pool is taken and
    the taken members leave the pool. *)

Definition required_count (r : RoomRequirement) : nat :=
  if single_staff r then 1 else 2.

Definition eligible (r : RoomRequirement) (pool : list Staff) : list Staff :=
  if girls_only r then filter (λ s, is_female s) pool else pool.

Definition take_front (r : RoomRequirement) (pool : list Staff) : list Staff :=
  take (required_count r) (eligible r pool).

Fixpoint remove_first (x : Staff) (pool : list Staff) : list Staff :=
  match pool with
  | [] => []
  | y :: pool' => if decide (y = x) then pool' else y :: remove_first x pool'
  end.

Definition remove_taken (taken pool : list Staff) : list Staff :=
  foldl (λ p s, remove_first s p) pool taken.

(** The staff taken for every requirement, short or empty lists included. *)
Fixpoint greedy (pool : list Staff) (reqs : list RoomRequirement)
    : list (RoomRequirement * list Staff) :=
  match reqs with
  | [] => []
  | r :: rs =>
      let taken := take_front r pool in
      (r, taken) :: greedy (remove_taken taken pool) rs
  end.

(** The pool that is left once [reqs] have been served. *)
Fixpoint pool_after (pool : list Staff) (reqs : list RoomRequirement)
    : list Staff :=
  match reqs with
  | [] => pool
  | r :: rs => pool_after (remove_taken (take_front r pool) pool) rs
  end.

(** What reaches [allotments] for one room: nothing when nobody was taken. *)
Definition emit (p : RoomRequirement * list Staff) : list Assignment :=
  match p.2 with
  | [] => []
  | _ :: _ => [mkAssignment (room_no p.1) p.2]
  end.

Definition emitted (l : list (RoomRequirement * list Staff)) : list Assignment :=
  concat (emit <$> l).

(** The set read from the exclusion file, when it can be read. *)
Definition exclusion_set (file : excluded_file) : option (gset string) :=
  match file with
  | FileAbsent => Some ∅
  | FileNames names => Some (list_to_set names)
  | FileUnreadable => None
  end.

Definition available (excluded : gset string) (staff_list : list Staff)
    : list Staff :=
  filter (λ s, strip (staff_name s) ∉ excluded) staff_list.

End Engine.

(** ** The requirement aggregator: [calculate_staff_requirements] *)

Module Aggregator.

(** The method reads two attributes of [self]: [available_classes], the list
    of room numbers, and [room_frames], the dict from a room number to its
    frame.  Both are arguments here. *)

(** The two checkbox variables of a room's frame, as
    [winfo_children()[1].variable.get()] and
    [winfo_children()[2].variable.get()] return them. *)
Record RoomFrame : Type := mkFrame {
  girls_only_var : bool;
  single_staff_var : bool
}.

(** The [for room_no in self.available_classes:] loop on the two counters.
    [None] stands for an exception raised inside the [try] block
    ([self.room_frames[room_no]] on a room without a frame). *)
Fixpoint count_rooms (room_frames : gmap string RoomFrame)
    (available_classes : list string) (total_required female_required : Z)
    : option (Z * Z) :=
  match available_classes with
  | [] => Some (total_required, female_required)
  | room_no :: rest =>
      match room_frames !! room_no with
      | None => None
      | Some frame =>
          let girls_only := girls_only_var frame in
          let single_staff := single_staff_var frame in
          if single_staff then
            count_rooms room_frames rest (total_required + 1)
              (if girls_only then female_required + 1 else female_required)
          else
            count_rooms room_frames rest (total_required + 2)
              (if girls_only then female_required + 2 else female_required)
      end
  end%Z.

(** Returns [(total_required, female_required, male_possible)]; the
    [except Exception] branch returns [0, 0, 0]. *)
Definition calculate_staff_requirements (room_frames : gmap string RoomFrame)
    (available_classes : list string) : Z * Z * Z :=
  match count_rooms room_frames available_classes 0 0 with
  | Some (total_required, female_required) =>
      let male_possible := (total_required - female_required)%Z in
      (total_required, female_required, male_possible)
  | None => (0, 0, 0)%Z
  end.

(** The requirement records the widgets stand for, when every room of
    [available_classes] has a frame. *)
Fixpoint requirements (room_frames : gmap string RoomFrame)
    (available_classes : list string) : option (list Engine.RoomRequirement) :=
  match available_classes with
  | [] => Some []
  | room_no :: rest =>
      match room_frames !! room_no, requirements room_frames rest with
      | Some frame, Some rs =>
          Some (Engine.mkRoom room_no (girls_only_var frame)
                  (single_staff_var frame) :: rs)
      | _, _ => None
      end
  end.

(** The sums as the aggregator is specified:
    [Σ (1 if r.single_staff else 2)], over all rooms and over the girls-only
    rooms. *)
Definition headcount (r : Engine.RoomRequirement) : Z :=
  if Engine.single_staff r then 1%Z else 2%Z.

Definition sum_headcount (reqs : list Engine.RoomRequirement) : Z :=
  foldr Z.add 0%Z (headcount <$> reqs).

Definition total_required_of (reqs : list Engine.RoomRequirement) : Z :=
  sum_headcount reqs.

Definition female_required_of (reqs : list Engine.RoomRequirement) : Z :=
  sum_headcount (filter (λ r, Engine.girls_only r = true) reqs).

End Aggregator.

(** ** The configuration store: [ConfigurationManager] *)

Module ConfigStore.

(** A configuration is whatever JSON-like value the caller hands over. *)
#[local] Unset Elimination Schemes.
Inductive json : Type :=
| JNull
| JBool (b : bool)
| JInt (n : Z)
| JStr (s : string)
| JList (l : list json)
| JDict (d : list (string * json)).
#[local] Set Elimination Schemes.

(** The literal [get_date_config] falls back to. *)
Definition default_config : json :=
  JDict [("rooms", JList []);
         ("settings", JDict [("reporting_time", JStr "");
                             ("assessment_name", JStr "");
                             ("exam_time", JStr "");
                             ("exam_details", JStr "")])].

Record ConfigurationManager : Type := mkManager {
  configurations : gmap string json
}.

(** [__init__]: [self.configurations = {}]. *)
Definition init : ConfigurationManager := mkManager ∅.

(** What [DB_FILES['classes']] holds: a complete dump of some map, or the
    truncated remains of a dump that stopped half way. *)
Inductive classes_file : Type :=
| FileHolds (dumped : gmap string json)
| FilePartial.

(** How the [try] block of [save_configurations] goes. *)
Inductive write_outcome : Type :=
| WriteCompletes     (* json.dump returns *)
| WriteRefused       (* os.makedirs or open raises: the file is untouched *)
| WriteInterrupted.  (* open truncated the file, json.dump raises *)

(** [save_configurations]: [True] after the dump, [False] from the
    [except Exception] branch. *)
Definition save_configurations (self : ConfigurationManager)
    (w : write_outcome) (disk : classes_file) : bool * classes_file :=
  match w with
  | WriteCompletes => (true, FileHolds (configurations self))
  | WriteRefused => (false, disk)
  | WriteInterrupted => (false, FilePartial)
  end.

(** [self.configurations.get(date, {...})] *)
Definition get_date_config (self : ConfigurationManager) (date : string) : json :=
  default default_config (configurations self !! date).

(** [self.configurations[date] = config; return self.save_configurations()] *)
Definition set_date_config (self : ConfigurationManager) (date : string)
    (config : json) (w : write_outcome) (disk : classes_file)
    : bool * ConfigurationManager * classes_file :=
  let self := mkManager (<[date := config]> (configurations self)) in
  let '(saved, disk) := save_configurations self w disk in
  (saved, self, disk).

(** [self.configurations = {}; self.save_configurations()]: the result of the
    save is dropped and the method returns [None]. *)
Definition clear_configurations (self : ConfigurationManager)
    (w : write_outcome) (disk : classes_file)
    : unit * ConfigurationManager * classes_file :=
  let self := mkManager ∅ in
  let '(_, disk) := save_configurations self w disk in
  (tt, self, disk).

End ConfigStore.

(** ** The staff directory: upload, statistics and the exclusion toggle *)

Module Directory.

Import Engine.

(** One sheet of the uploaded workbook, as [pd.read_excel] delivers it: its
    rows as the pairs [(str(row['Name']), str(row['Gender']))] (no rows when
    [df.empty]), a sheet with rows but without the two columns, or a sheet
    whose reading raises. *)
Inductive sheet : Type :=
| SheetRows (rows : list (string * string))
| SheetWithoutColumns
| SheetUnreadable.

(** The two [if]/[elif] tests on [staff_member['staff_gender']]. *)
Definition normalize_gender (g : string) : string :=
  if bool_decide (g ∈ ["M"; "MALE"; "MR"]) then "M"
  else if bool_decide (g ∈ ["F"; "FEMALE"; "MS"; "MRS"]) then "F"
  else g.

(** The body of [for index, row in df.iterrows():]; [None] when the record
    is not appended. *)
Definition upload_row (dept : string) (row : string * string) : option Staff :=
  let staff_member := mkStaff (strip row.1) (strip dept) (upper (strip row.2)) in
  let staff_member :=
    mkStaff (staff_name staff_member) (staff_dept staff_member)
      (normalize_gender (staff_gender staff_member)) in
  if bool_decide (staff_name staff_member ≠ "")
     && bool_decide (staff_gender staff_member ∈ ["M"; "F"])
  then Some staff_member else None.

(** [for dept in departments:] on the accumulator [staff_data]; [None] is the
    [return] taken at a sheet without the required columns. *)
Fixpoint process_sheets (departments : list (string * sheet))
    (staff_data : list Staff) : option (list Staff) :=
  match departments with
  | [] => Some staff_data
  | (dept, df) :: rest =>
      match df with
      | SheetRows rows =>
          process_sheets rest (staff_data ++ omap (upload_row dept) rows)
      | SheetWithoutColumns => None
      | SheetUnreadable => process_sheets rest staff_data
      end
  end.

(** [upload_staff_file], from the sheets of the chosen workbook to the list
    it dumps into [data/staff.json]; [None] when it returns without writing
    (a sheet without the columns, or no valid record at all). *)
Definition upload_staff_file (departments : list (string * sheet))
    : option (list Staff) :=
  match process_sheets departments [] with
  | None => None
  | Some [] => None
  | Some staff_data => Some staff_data
  end.

(** [s.get('staff_gender', '').upper() in ['M', 'MALE']] *)
Definition is_male (s : Staff) : bool :=
  bool_decide (upper (staff_gender s) ∈ ["M"; "MALE"]).

(** [get_staff_statistics]: [(total_staff, female_staff, male_staff)];
    [staff_file] is what [json.load] finds in [data/staff.json], [None] when
    the read raises (the [except] branch returns [0, 0, 0]). *)
Definition get_staff_statistics (staff_file : option (list Staff))
    : nat * nat * nat :=
  match staff_file with
  | Some staff_data =>
      let total_staff := length staff_data in
      let female_staff := length (filter (λ s, is_female s) staff_data) in
      let male_staff := length (filter (λ s, is_male s) staff_data) in
      (total_staff, female_staff, male_staff)
  | None => (0, 0, 0)
  end.

(** The counters of [configure_selected_classes]:
    [(total_staff, available_staff, female_staff, male_staff)].  They start
    at 0 and keep that value when either read inside the [try] raises. *)
Definition staff_counters (staff_file : option (list Staff))
    (file : excluded_file) : nat * nat * nat * nat :=
  match staff_file, file with
  | None, _ => (0, 0, 0, 0)
  | Some _, FileUnreadable => (0, 0, 0, 0)
  | Some staff_list, _ =>
      let excluded_staff : gset string :=
        match file with
        | FileNames names => list_to_set names
        | _ => ∅
        end in
      let total_staff := length staff_list in
      let available_staff :=
        length (filter (λ s, strip (staff_name s) ∉ excluded_staff) staff_list) in
      let female_staff :=
        length (filter (λ s, is_female s
                             ∧ strip (staff_name s) ∉ excluded_staff) staff_list) in
      let male_staff :=
        length (filter (λ s, is_male s
                             ∧ strip (staff_name s) ∉ excluded_staff) staff_list) in
      (total_staff, available_staff, female_staff, male_staff)
  end.

(** What [toggle_staff_allotment] finds at [data/excluded_staff.json]. *)
Inductive exclusion_store : Type :=
| StoreAbsent                        (* os.path.exists(...) is False *)
| StoreGarbled                       (* open or json.load raises *)
| StoreJson (v : ConfigStore.json).  (* json.load returns v *)

(** [staff_name == v] for an element [v] of the loaded list: a string is
    equal to a string only. *)
Definition is_name (staff_name : string) (v : ConfigStore.json) : bool :=
  match v with
  | ConfigStore.JStr s => bool_decide (s = staff_name)
  | _ => false
  end.

(** [excluded_staff.remove(staff_name)]: the first equal element goes. *)
Fixpoint remove_entry (staff_name : string) (l : list ConfigStore.json)
    : list ConfigStore.json :=
  match l with
  | [] => []
  | v :: l' =>
      if is_name staff_name v then l' else v :: remove_entry staff_name l'
  end.

(** The same on a list of names. *)
Fixpoint remove_name (x : string) (l : list string) : list string :=
  match l with
  | [] => []
  | y :: l' => if decide (y = x) then l' else y :: remove_name x l'
  end.

(** [toggle_staff_allotment].  Only [json.load] is guarded: the list starts
    as [[]] and stays so when the file is absent or the load raises.  A
    loaded value that is no list makes the method raise ([None]) before
    anything is written: [in] raises [TypeError] on [null], a boolean or a
    number, and a string or a dict has neither [remove] nor [append].  The
    write at the end is not guarded either.  Returns the file it leaves. *)
Definition toggle_staff_allotment (staff_name : string)
    (w : ConfigStore.write_outcome) (store : exclusion_store)
    : option unit * exclusion_store :=
  let excluded_staff :=
    match store with
    | StoreJson v => v
    | StoreAbsent | StoreGarbled => ConfigStore.JList []
    end in
  match excluded_staff with
  | ConfigStore.JList l =>
      let l :=
        if existsb (is_name staff_name) l
        then remove_entry staff_name l
        else l ++ [ConfigStore.JStr staff_name] in
      match w with
      | ConfigStore.WriteCompletes => (Some tt, StoreJson (ConfigStore.JList l))
      | ConfigStore.WriteRefused => (None, store)
      | ConfigStore.WriteInterrupted => (None, StoreGarbled)
      end
  | ConfigStore.JNull | ConfigStore.JBool _ | ConfigStore.JInt _
  | ConfigStore.JStr _ | ConfigStore.JDict _ => (None, store)
  end.

(** An element [set(...)] takes: a list or a dict is not hashable. *)
Definition hashable (v : ConfigStore.json) : bool :=
  match v with
  | ConfigStore.JList _ | ConfigStore.JDict _ => false
  | _ => true
  end.

(** What [allocate_staff] finds when the file holds the JSON list [l]:
    [set(json.load(f))] raises on an element that is not hashable; otherwise
    only the strings of [l] can be equal to a name. *)
Definition list_as_engine_reads (l : list ConfigStore.json) : excluded_file :=
  if forallb hashable l
  then FileNames (omap (λ v, match v with
                             | ConfigStore.JStr s => Some s
                             | _ => None
                             end) l)
  else FileUnreadable.

End Directory.

(** ** Queries and checks of the configuration store *)

Module ConfigQueries.

Import ConfigStore.

(** [sorted(self.configurations.keys())]: the keys are distinct, so the
    sorted list does not depend on the order the dict lists them in. *)
Definition get_all_dates (self : ConfigurationManager) : list string :=
  merge_sort String.le (map_to_list (configurations self)).*1.

Definition get_configured_dates (self : ConfigurationManager) : list string :=
  merge_sort String.le (map_to_list (configurations self)).*1.

(** A [JDict] lists the items of a Python dict in insertion order. *)
Definition dict_has (k : string) (d : list (string * json)) : bool :=
  bool_decide (k ∈ d.*1).

Fixpoint dict_get (k : string) (d : list (string * json)) : option json :=
  match d with
  | [] => None
  | (k', v) :: d' => if decide (k' = k) then Some v else dict_get k d'
  end.

(** [d[k] = v]: an existing key keeps its place. *)
Fixpoint dict_set (k : string) (v : json) (d : list (string * json))
    : list (string * json) :=
  match d with
  | [] => [(k, v)]
  | (k', v') :: d' =>
      if decide (k' = k) then (k, v) :: d' else (k', v') :: dict_set k v d'
  end.

(** [p in s] on two strings. *)
Fixpoint contains (p s : string) : bool :=
  String.prefix p s
  || match s with
     | EmptyString => false
     | String _ s' => contains p s'
     end.

(** [key in container] for a string [key]; [None] is the [TypeError] raised
    on a value that is no container. *)
Definition py_in (key : string) (container : json) : option bool :=
  match container with
  | JDict d => Some (dict_has key d)
  | JList l =>
      Some (existsb (λ x, match x with
                          | JStr s => bool_decide (s = key)
                          | _ => false
                          end) l)
  | JStr s => Some (contains key s)
  | JNull | JBool _ | JInt _ => None
  end.

(** [for x in container]; [None] is the [TypeError] of a value that cannot
    be iterated. *)
Definition py_iter (container : json) : option (list json) :=
  match container with
  | JList l => Some l
  | JDict d => Some (JStr <$> d.*1)
  | JStr s => Some ((λ c, JStr (String c EmptyString)) <$> String.list_ascii_of_string s)
  | JNull | JBool _ | JInt _ => None
  end.

(** [all(key in container for key in keys)], stopping at the first key that
    is missing or at the first exception. *)
Fixpoint all_in (keys : list string) (container : json) : option bool :=
  match keys with
  | [] => Some true
  | key :: rest =>
      match py_in key container with
      | None => None
      | Some false => Some false
      | Some true => all_in rest container
      end
  end.

(** The second component of what [validate_config] returns. *)
Inductive message : Type :=
| InvalidFormat                (* "Invalid configuration format" *)
| MissingRooms                 (* "Missing rooms configuration" *)
| MissingSettings              (* "Missing settings configuration" *)
| InvalidRoom (room : json)    (* f"Invalid room configuration: {room}" *)
| MissingRequiredSettings      (* "Missing required settings" *)
| ConfigurationValid           (* "Configuration is valid" *)
| ValidationError.             (* f"Validation error: {str(e)}" *)

(** The loop over [config['rooms']]: [None] for an exception, [Some (Some
    room)] for the first room that lacks a key, [Some None] when all pass. *)
Fixpoint check_rooms (rooms : list json) : option (option json) :=
  match rooms with
  | [] => Some None
  | room :: rest =>
      match all_in ["room_no"; "girls_only"; "single_staff"] room with
      | None => None
      | Some false => Some (Some room)
      | Some true => check_rooms rest
      end
  end.

Definition required_settings : list string :=
  ["reporting_time"; "assessment_name"; "exam_time"; "exam_details"].

Definition validate_config (config : json) : bool * message :=
  match config with
  | JDict d =>
      if negb (dict_has "rooms" d) then (false, MissingRooms)
      else if negb (dict_has "settings" d) then (false, MissingSettings)
      else
        match dict_get "rooms" d, dict_get "settings" d with
        | Some rooms, Some settings =>
            match py_iter rooms with
            | None => (false, ValidationError)
            | Some rooms =>
                match check_rooms rooms with
                | None => (false, ValidationError)
                | Some (Some room) => (false, InvalidRoom room)
                | Some None =>
                    match all_in required_settings settings with
                    | None => (false, ValidationError)
                    | Some false => (false, MissingRequiredSettings)
                    | Some true => (true, ConfigurationValid)
                    end
                end
            end
        | _, _ => (false, ValidationError)
        end
  | _ => (false, InvalidFormat)
  end.

End ConfigQueries.

(** ** The pages that drive the store: selecting dates, configuring classes,
       entering the exam details *)

Module Workflow.

Import ConfigStore ConfigQueries.

(** One entry of [self.class_modifiers]: the three [BooleanVar]s. *)
Record Modifiers : Type := mkModifiers {
  selected : bool;
  girls_only_mod : bool;
  single_staff_mod : bool
}.

(** [update_requirements]: the three numbers written to the labels,
    [(total_req, female_req, male_pos)].  [class_modifiers] lists the items
    of the dict in insertion order. *)
Fixpoint count_selected (class_modifiers : list (string * Modifiers))
    (total_req female_req : Z) : Z * Z :=
  match class_modifiers with
  | [] => (total_req, female_req)
  | (class_name, modifiers) :: rest =>
      if selected modifiers then
        if single_staff_mod modifiers then
          count_selected rest (total_req + 1)
            (if girls_only_mod modifiers then female_req + 1 else female_req)
        else
          count_selected rest (total_req + 2)
            (if girls_only_mod modifiers then female_req + 2 else female_req)
      else count_selected rest total_req female_req
  end%Z.

Definition update_requirements (class_modifiers : list (string * Modifiers))
    : Z * Z * Z :=
  let '(total_req, female_req) := count_selected class_modifiers 0 0 in
  let male_pos := (total_req - female_req)%Z in
  (total_req, female_req, male_pos).

(** The rooms [save_configuration] collects from the selected classes, as
    the records the engine is later run on. *)
Definition selected_rooms (class_modifiers : list (string * Modifiers))
    : list Engine.RoomRequirement :=
  omap (λ '(class_name, modifiers),
          if selected modifiers
          then Some (Engine.mkRoom class_name (girls_only_mod modifiers)
                       (single_staff_mod modifiers))
          else None) class_modifiers.

(** [{'room_no': ..., 'girls_only': ..., 'single_staff': ...}] *)
Definition room_json (r : Engine.RoomRequirement) : json :=
  JDict [("room_no", JStr (Engine.room_no r));
         ("girls_only", JBool (Engine.girls_only r));
         ("single_staff", JBool (Engine.single_staff r))].

Definition empty_settings : json :=
  JDict [("reporting_time", JStr ""); ("assessment_name", JStr "");
         ("exam_time", JStr ""); ("exam_details", JStr "")].

(** [if config:] *)
Definition truthy (v : json) : bool :=
  match v with
  | JNull => false
  | JBool b => b
  | JInt n => negb (Z.eqb n 0)
  | JStr s => negb (bool_decide (s = ""))
  | JList l => match l with [] => false | _ :: _ => true end
  | JDict d => match d with [] => false | _ :: _ => true end
  end.

(** [container[k] = v] with a string [k]: only a dict takes it, anything
    else raises [TypeError] ([None]). *)
Definition set_item (k : string) (v : json) (container : json) : option json :=
  match container with
  | JDict d => Some (JDict (dict_set k v d))
  | _ => None
  end.

(** The body of the [for date in date_dialog.selected_dates:] loop of
    [save_configuration]; [None] when an item assignment raises, which
    leaves the loop for the handler of the method. *)
Definition configure_date (self : ConfigurationManager)
    (class_modifiers : list (string * Modifiers)) (date : string)
    (w : write_outcome) (disk : classes_file)
    : option (ConfigurationManager * classes_file) :=
  let config := get_date_config self date in
  match (if truthy config then set_item "settings" empty_settings config
         else Some (JDict [("rooms", JList []); ("settings", empty_settings)]))
  with
  | None => None
  | Some config =>
      match set_item "rooms" (JList (room_json <$> selected_rooms class_modifiers))
              config with
      | None => None
      | Some config =>
          let '(_, self, disk) := set_date_config self date config w disk in
          Some (self, disk)
      end
  end.

(** The body of the [for date in ...get_configured_dates():] loop of
    [generate_both]. *)
Definition apply_exam_details (self : ConfigurationManager)
    (assessment_name exam_time reporting_time : string) (date : string)
    (w : write_outcome) (disk : classes_file)
    : option (ConfigurationManager * classes_file) :=
  let config := get_date_config self date in
  if truthy config then
    match set_item "settings"
            (JDict [("assessment_name", JStr assessment_name);
                    ("exam_time", JStr exam_time);
                    ("reporting_time", JStr reporting_time)]) config with
    | None => None
    | Some config =>
        let '(_, self, disk) := set_date_config self date config w disk in
        Some (self, disk)
    end
  else Some (self, disk).

(** The loop of [save_selected_dates]: one [set_date_config] with the empty
    configuration per selected date, each with its own write outcome. *)
Fixpoint set_empty_configs (self : ConfigurationManager)
    (dates : list (string * write_outcome)) (disk : classes_file)
    : ConfigurationManager * classes_file :=
  match dates with
  | [] => (self, disk)
  | (date, w) :: rest =>
      let '(_, self, disk) :=
        set_date_config self date
          (JDict [("rooms", JList []); ("settings", empty_settings)]) w disk in
      set_empty_configs self rest disk
  end.

(** [save_selected_dates]: nothing happens without a selected date, nor when
    the dump of the dates to the settings file raises ([settings_written]
    false: the handler of the method takes over); otherwise
    [clear_configurations()] and the loop. *)
Definition save_selected_dates (self : ConfigurationManager)
    (settings_written : bool) (w : write_outcome)
    (dates : list (string * write_outcome)) (disk : classes_file)
    : ConfigurationManager * classes_file :=
  match dates with
  | [] => (self, disk)
  | _ :: _ =>
      if settings_written then
        let '(_, self, disk) := clear_configurations self w disk in
        set_empty_configs self dates disk
      else (self, disk)
  end.

End Workflow.

(** ** Notions used to describe a run of the engine *)

Module Staffing.

Import Engine.

(** The members of a pool a girls-only room can take. *)
Definition women (pool : list Staff) : list Staff :=
  filter (λ s, is_female s) pool.

(** An assignment that is the one of room [r] and has all the staff [r]
    asks for. *)
Definition well_staffed (a : Assignment) (r : RoomRequirement) : Prop :=
  a_room_no a = room_no r ∧ length (staff a) = required_count r.

(** A record as the upload leaves it: a name that is not empty, name and
    department without surrounding white space, gender "M" or "F". *)
Definition normalised (s : Staff) : Prop :=
  staff_name s ≠ "" ∧ strip (staff_name s) = staff_name s
  ∧ strip (staff_dept s) = staff_dept s
  ∧ (staff_gender s = "M" ∨ staff_gender s = "F").

End Staffing.

(** ** Sample values for the worked examples *)

Import Engine.

Definition staff_A : Staff := mkStaff "A" "CSE" "F".
Definition staff_B : Staff := mkStaff "B" "ECE" "M".
Definition staff_C : Staff := mkStaff "C" "ECE" "FEMALE".

(** The name is a space, "A" and a no-break space (U+00A0). *)
Definition staff_A_padded : Staff := mkStaff (bytes [32; 65; 194; 160]) "CSE" "F".

Definition room_X : RoomRequirement := mkRoom "X" false false.
Definition room_100 : RoomRequirement := mkRoom "100" true true.
Definition room_101 : RoomRequirement := mkRoom "101" true false.
Definition room_102 : RoomRequirement := mkRoom "102" false false.

Definition sample_frames : gmap string Aggregator.RoomFrame :=
  <["101" := Aggregator.mkFrame true true]>
    (<["102" := Aggregator.mkFrame false false]>
       (<["103" := Aggregator.mkFrame true false]> ∅)).

Definition sample_config : ConfigStore.json :=
  ConfigStore.JDict
    [("rooms", ConfigStore.JList
        [ConfigStore.JDict [("room_no", ConfigStore.JStr "101");
                            ("girls_only", ConfigStore.JBool true);
                            ("single_staff", ConfigStore.JBool false)]]);
     ("settings", ConfigStore.JDict
        [("reporting_time", ConfigStore.JStr "09:00");
         ("assessment_name", ConfigStore.JStr "CAT 1");
         ("exam_time", ConfigStore.JStr "FN");
         ("exam_details", ConfigStore.JStr "")])].

Definition sample_store : ConfigStore.ConfigurationManager :=
  ConfigStore.mkManager {["2024-05-01" := sample_config]}.

Definition sample_workbook : list (string * Directory.sheet) :=
  [(" CSE ", Directory.SheetRows [("  Anita ", "female"); ("Bala", "mr");
                                  ("", "F"); ("Chitra", "x")]);
   ("ECE", Directory.SheetUnreadable);
   ("EEE", Directory.SheetRows [])].

Definition sample_exclusions : Directory.exclusion_store :=
  Directory.StoreJson (ConfigStore.JList [ConfigStore.JStr "A"]).

Definition sample_modifiers : list (string * Workflow.Modifiers) :=
  [("100", Workflow.mkModifiers true true true);
   ("101", Workflow.mkModifiers false true false);
   ("102", Workflow.mkModifiers true false false)].

(** * Properties of the allocation engine *)

(** *** Lemmas on [list.remove] and the selection loop *)

(** ** White space around a name *)

Lemma rstrip_cons (c : ascii) (s : string) :
  rstrip (String c s) =
    if is_space (String c (rstrip s)) then EmptyString
    else String c (rstrip s).
Proof. reflexivity. Qed.

Lemma rstrip_idem (s : string) : rstrip (rstrip s) = rstrip s.
Proof.
  induction s as [|c s IH]; [done|]. rewrite rstrip_cons.
  destruct (is_space (String c (rstrip s))) eqn:Hsp; [done|].
  by rewrite rstrip_cons, IH, Hsp.
Qed.

Lemma lstrip_cons (c : ascii) (s1 : string) :
  lstrip (String c s1) =
    if is_space (String c EmptyString) then lstrip s1
    else
      match s1 with
      | EmptyString => String c s1
      | String d s2 =>
          if is_space (String c (String d EmptyString)) then lstrip s2
          else
            match s2 with
            | EmptyString => String c s1
            | String e s3 =>
                if is_space (String c (String d (String e EmptyString)))
                then lstrip s3 else String c s1
            end
      end.
Proof. reflexivity. Qed.

Lemma lstrip_eq (s : string) :
  lstrip s = match space_head s with Some s' => lstrip s' | None => s end.
Proof.
  destruct s as [|c s1]; [done|]. rewrite lstrip_cons. cbn [space_head].
  destruct (is_space (String c EmptyString)); [done|].
  destruct s1 as [|d s2]; [done|].
  destruct (is_space (String c (String d EmptyString))); [done|].
  destruct s2 as [|e s3]; [done|].
  by destruct (is_space (String c (String d (String e EmptyString)))).
Qed.

Lemma space_head_shorter (s s' : string) :
  space_head s = Some s' → (String.length s' < String.length s)%nat.
Proof.
  destruct s as [|c [|d [|e s3]]]; cbn [space_head];
    repeat case_match; intros [= <-]; simpl; lia.
Qed.

Lemma lstrip_no_space_head (s : string) : space_head (lstrip s) = None.
Proof.
  remember (String.length s) as n eqn:Hn. revert s Hn.
  induction n as [n IH] using lt_wf_ind. intros s ->.
  rewrite lstrip_eq. destruct (space_head s) as [s'|] eqn:Hhead; [|done].
  by eapply IH; [eapply space_head_shorter|].
Qed.

Lemma space_head_app (r r' u : string) :
  space_head r = Some r' → space_head (r +:+ u) = Some (r' +:+ u).
Proof.
  destruct r as [|c r1]; [done|].
  change (String c r1 +:+ u) with (String c (r1 +:+ u)). cbn [space_head].
  destruct (is_space (String c EmptyString)); [by intros [= <-]|].
  destruct r1 as [|d r2]; [done|].
  change (String d r2 +:+ u) with (String d (r2 +:+ u)). cbn iota.
  destruct (is_space (String c (String d EmptyString))); [by intros [= <-]|].
  destruct r2 as [|e r3]; [done|].
  change (String e r3 +:+ u) with (String e (r3 +:+ u)). cbn iota.
  by destruct (is_space (String c (String d (String e EmptyString))));
    [intros [= <-]|].
Qed.

Lemma rstrip_prefix (s : string) : ∃ post, s = rstrip s +:+ post ∧ all_space post.
Proof.
  induction s as [|c s (post & Hs & Hpost)].
  - exists EmptyString. split; [done | constructor].
  - rewrite rstrip_cons.
    destruct (is_space (String c (rstrip s))) eqn:Hsp.
    + exists (String c (rstrip s) +:+ post). split.
      * change (String c s = String c (rstrip s +:+ post)). by rewrite <- Hs.
      * constructor; [|done]. by apply bool_decide_eq_true in Hsp.
    + exists post. split; [|done].
      change (String c s = String c (rstrip s +:+ post)). by rewrite <- Hs.
Qed.

Lemma rstrip_keeps_no_space_head (t : string) :
  space_head t = None → space_head (rstrip t) = None.
Proof.
  intros Ht. destruct (space_head (rstrip t)) as [r'|] eqn:Hr; [|done].
  destruct (rstrip_prefix t) as (post & Heq & _).
  apply (space_head_app _ _ post) in Hr. rewrite <- Heq in Hr. congruence.
Qed.

Lemma strip_idem (s : string) : strip (strip s) = strip s.
Proof.
  unfold strip.
  rewrite (lstrip_eq (rstrip (lstrip s))).
  rewrite rstrip_keeps_no_space_head by apply lstrip_no_space_head.
  apply rstrip_idem.
Qed.

Lemma space_head_split (s s' : string) :
  space_head s = Some s' → ∃ ch, ch ∈ white_space ∧ s = ch +:+ s'.
Proof.
  destruct s as [|c s1]; [done|]. cbn [space_head].
  destruct (is_space (String c EmptyString)) eqn:H1.
  { intros [= <-]. exists (String c EmptyString).
    split; [by apply bool_decide_eq_true in H1 | done]. }
  destruct s1 as [|d s2]; [done|].
  destruct (is_space (String c (String d EmptyString))) eqn:H2.
  { intros [= <-]. exists (String c (String d EmptyString)).
    split; [by apply bool_decide_eq_true in H2 | done]. }
  destruct s2 as [|e s3]; [done|].
  destruct (is_space (String c (String d (String e EmptyString)))) eqn:H3;
    [|done].
  intros [= <-]. exists (String c (String d (String e EmptyString))).
  split; [by apply bool_decide_eq_true in H3 | done].
Qed.

Lemma append_assoc (s1 s2 s3 : string) :
  (s1 +:+ s2) +:+ s3 = s1 +:+ (s2 +:+ s3).
Proof.
  induction s1 as [|c s1 IH]; [done|].
  change (String c ((s1 +:+ s2) +:+ s3) = String c (s1 +:+ (s2 +:+ s3))).
  by rewrite IH.
Qed.

Lemma lstrip_split (s : string) :
  ∃ pre, s = pre +:+ lstrip s ∧ all_space pre.
Proof.
  remember (String.length s) as n eqn:Hn. revert s Hn.
  induction n as [n IH] using lt_wf_ind. intros s ->.
  rewrite lstrip_eq. destruct (space_head s) as [s'|] eqn:Hhead.
  - destruct (space_head_split _ _ Hhead) as (ch & Hch & ->).
    destruct (IH _ (space_head_shorter _ _ Hhead) s' eq_refl)
      as (pre & Hs' & Hpre).
    exists (ch +:+ pre). split; [|by constructor].
    rewrite append_assoc. by rewrite <- Hs'.
  - exists EmptyString. split; [done | constructor].
Qed.

Lemma white_space_not_empty (ch : string) : ch ∈ white_space → ch ≠ EmptyString.
Proof.
  intros Hin ->. revert Hin. apply (bool_decide_eq_false_1 _).
  vm_compute. reflexivity.
Qed.

Lemma space_head_of_space (ch x : string) :
  ch ∈ white_space → space_head (ch +:+ x) ≠ None.
Proof.
  intros Hin. unfold white_space in Hin.
  repeat (apply elem_of_cons in Hin as [->|Hin]; [by vm_compute|]).
  by apply elem_of_nil in Hin.
Qed.

Lemma rstrip_no_space_tail (s ch x : string) :
  ch ∈ white_space → rstrip s ≠ x +:+ ch.
Proof.
  intros Hch. revert x. induction s as [|c s IH]; intros x.
  - cbn [rstrip]. destruct x; [|done]. intros Heq. symmetry in Heq.
    by apply (white_space_not_empty ch).
  - rewrite rstrip_cons.
    destruct (is_space (String c (rstrip s))) eqn:Hsp.
    + destruct x; [|done]. intros Heq. symmetry in Heq.
      by apply (white_space_not_empty ch).
    + destruct x as [|c' x'].
      * intros Heq. apply bool_decide_eq_false in Hsp. apply Hsp.
        by rewrite Heq.
      * intros [= _ Heq]. by apply (IH x').
Qed.

Lemma strip_trimmed (name : string) : trimmed (strip name).
Proof.
  intros ch x Hch. split.
  - intros Heq. apply (space_head_of_space ch x Hch). rewrite <- Heq.
    unfold strip. apply rstrip_keeps_no_space_head, lstrip_no_space_head.
  - by apply rstrip_no_space_tail.
Qed.

Lemma strip_trimmed_name (name : string) : trimmed_name name (strip name).
Proof.
  destruct (lstrip_split name) as (pre & Hname & Hpre).
  destruct (rstrip_prefix (lstrip name)) as (post & Hcore & Hpost).
  exists pre, post. split; [|split; [done|split; [done|apply strip_trimmed]]].
  unfold strip. by rewrite <- Hcore.
Qed.

(** ** The selection loop *)

Lemma filter_everything (l : list Staff) : filter (λ _, True) l = l.
Proof.
  induction l as [|x l IH]; [done|].
  rewrite filter_cons_True; [by f_equal | done].
Qed.

Lemma list_remove_filter_head (P : Staff → Prop) `{!∀ s, Decision (P s)}
    (l e : list Staff) (s : Staff) :
  filter P l = s :: e →
  list_remove s l = Ok (remove_first s l) ∧ filter P (remove_first s l) = e.
Proof.
  induction l as [|a l IH]; intros Hf; [done|].
  assert (P s) as Hs.
  { assert (s ∈ filter P (a :: l)) as Hin by (rewrite Hf; left).
    by apply list_elem_of_filter in Hin as [? _]. }
  simpl. destruct (decide (a = s)) as [->|Hne].
  - split; [done|]. rewrite filter_cons_True in Hf by done. congruence.
  - destruct (decide (P a)) as [Ha|Ha].
    + rewrite filter_cons_True in Hf by done. congruence.
    + rewrite filter_cons_False in Hf by done.
      destruct (IH Hf) as [-> Hrest]. simpl. split; [done|].
      by rewrite filter_cons_False.
Qed.

Lemma select_loop_filter (P : Staff → Prop) `{!∀ s, Decision (P s)}
    (n : nat) (e selected pool : list Staff) :
  filter P pool = e →
  select_loop n e selected pool =
    Ok (selected ++ take (n - length selected) e,
        remove_taken (take (n - length selected) e) pool).
Proof.
  revert selected pool.
  induction e as [|s e IH]; intros selected pool Hf; simpl.
  - by rewrite take_nil, app_nil_r.
  - destruct (Nat.ltb_spec (length selected) n) as [Hlt|Hge].
    + destruct (list_remove_filter_head P pool e s Hf) as [-> Hrest]. simpl.
      rewrite (IH (selected ++ [s]) _ Hrest).
      rewrite length_app. simpl.
      replace (n - length selected) with (S (n - (length selected + 1))) by lia.
      simpl. by rewrite <- app_assoc.
    + replace (n - length selected) with 0 by lia.
      simpl. by rewrite app_nil_r.
Qed.

Lemma process_room_greedy (r : RoomRequirement) (pool : list Staff)
    (done_so_far : list Assignment) :
  process_room r (done_so_far, pool) =
    Ok (done_so_far ++ emit (r, take_front r pool),
        remove_taken (take_front r pool) pool).
Proof.
  unfold process_room, take_front, eligible, required_count, emit.
  assert (∀ n, select_loop n
            (if girls_only r then filter (λ s, is_female s) pool else pool)
            [] pool =
          Ok (take n (if girls_only r then filter (λ s, is_female s) pool
                      else pool),
              remove_taken
                (take n (if girls_only r then filter (λ s, is_female s) pool
                         else pool)) pool)) as Hloop.
  { intros n. destruct (girls_only r).
    - rewrite (select_loop_filter (λ s, is_female s) n _ [] pool eq_refl).
      simpl. by rewrite Nat.sub_0_r.
    - rewrite (select_loop_filter (λ _, True) n pool [] pool
                 (filter_everything pool)).
      simpl. by rewrite Nat.sub_0_r. }
  rewrite Hloop. simpl.
  destruct (take _ _); simpl; [by rewrite app_nil_r | done].
Qed.

Lemma for_rooms_greedy (reqs : list RoomRequirement) (pool : list Staff)
    (done_so_far : list Assignment) :
  for_rooms reqs (done_so_far, pool) =
    Ok (done_so_far ++ emitted (greedy pool reqs), pool_after pool reqs).
Proof.
  revert pool done_so_far.
  induction reqs as [|r rs IH]; intros pool done_so_far; cbn [for_rooms].
  - unfold emitted. simpl. by rewrite app_nil_r.
  - rewrite process_room_greedy. cbn [bind greedy pool_after].
    rewrite IH. unfold emitted. cbn [fmap list_fmap concat].
    by rewrite <- app_assoc.
Qed.

(** *** The pool as a multiset *)

Lemma remove_first_perm (s : Staff) (pool : list Staff) :
  s ∈ pool → pool ≡ₚ s :: remove_first s pool.
Proof.
  induction pool as [|y pool IH]; intros Hin; [by apply elem_of_nil in Hin|].
  simpl. destruct (decide (y = s)) as [->|Hne]; [done|].
  apply elem_of_cons in Hin as [->|Hin]; [done|].
  rewrite (IH Hin) at 1. apply Permutation_swap.
Qed.

Lemma remove_taken_perm (taken pool : list Staff) :
  taken ⊆+ pool → pool ≡ₚ taken ++ remove_taken taken pool.
Proof.
  revert pool. induction taken as [|s taken IH]; intros pool Hsub; [done|].
  assert (s ∈ pool) as Hin by (eapply elem_of_submseteq; [left | done]).
  pose proof (remove_first_perm s pool Hin) as Hp.
  assert (taken ⊆+ remove_first s pool) as Hrest.
  { rewrite Hp in Hsub. by apply (submseteq_app_inv_l _ _ [s]). }
  unfold remove_taken. cbn [foldl]. fold (remove_taken taken (remove_first s pool)).
  rewrite Hp at 1. simpl. f_equiv. by apply IH.
Qed.

Lemma take_front_sublist (r : RoomRequirement) (pool : list Staff) :
  take_front r pool `sublist_of` pool.
Proof.
  unfold take_front, eligible.
  etrans; [apply sublist_take|].
  destruct (girls_only r); [apply sublist_filter | done].
Qed.

Lemma room_served_perm (r : RoomRequirement) (pool : list Staff) :
  pool ≡ₚ take_front r pool ++ remove_taken (take_front r pool) pool.
Proof. apply remove_taken_perm, sublist_submseteq, take_front_sublist. Qed.

Lemma greedy_perm (pool : list Staff) (reqs : list RoomRequirement) :
  pool ≡ₚ concat (snd <$> greedy pool reqs) ++ pool_after pool reqs.
Proof.
  revert pool. induction reqs as [|r rs IH]; intros pool; [done|].
  cbn [greedy pool_after fmap list_fmap concat snd].
  rewrite <- app_assoc, <- IH. apply room_served_perm.
Qed.

Lemma emitted_staff (l : list (RoomRequirement * list Staff)) :
  concat (staff <$> emitted l) = concat (snd <$> l).
Proof.
  unfold emitted. induction l as [|[r taken] l IH]; [done|].
  cbn [fmap list_fmap concat snd]. rewrite fmap_app, concat_app, IH.
  f_equal. unfold emit. simpl. destruct taken; simpl; [done|].
  by rewrite app_nil_r.
Qed.

Lemma emitted_app (l1 l2 : list (RoomRequirement * list Staff)) :
  emitted (l1 ++ l2) = emitted l1 ++ emitted l2.
Proof. unfold emitted. by rewrite fmap_app, concat_app. Qed.

Lemma greedy_app (pool : list Staff) (pre post : list RoomRequirement) :
  greedy pool (pre ++ post) = greedy pool pre ++ greedy (pool_after pool pre) post.
Proof.
  revert pool. induction pre as [|r pre IH]; intros pool; [done|].
  simpl. by rewrite IH.
Qed.

Lemma pool_after_app (pool : list Staff) (pre post : list RoomRequirement) :
  pool_after pool (pre ++ post) = pool_after (pool_after pool pre) post.
Proof.
  revert pool. induction pre as [|r pre IH]; intros pool; [done|].
  simpl. by rewrite IH.
Qed.

Lemma greedy_nil (reqs : list RoomRequirement) : emitted (greedy [] reqs) = [].
Proof.
  induction reqs as [|r rs IH]; [done|].
  cbn [greedy]. unfold take_front, eligible.
  destruct (girls_only r); rewrite ?filter_nil, take_nil; exact IH.
Qed.

Lemma available_empty (staff_list : list Staff) : available ∅ staff_list = staff_list.
Proof.
  unfold available. induction staff_list as [|s l IH]; [done|].
  rewrite filter_cons_True; [by f_equal | set_solver].
Qed.

(** The whole call, for a store that is absent or readable. *)
Lemma allocate_staff_run (shuffle : list Staff → list Staff)
    (file : excluded_file) (excluded : gset string) (staff_list : list Staff)
    (classes_list : list RoomRequirement) (date : string) :
  exclusion_set file = Some excluded →
  allocate_staff shuffle file staff_list classes_list date =
    Ok (emitted (greedy (shuffle (available excluded staff_list)) classes_list)).
Proof.
  intros Hfile. unfold allocate_staff.
  destruct file as [|names|]; simpl in Hfile; [| |done];
    injection Hfile as <-; cbn [bind].
  - rewrite available_empty. by rewrite for_rooms_greedy.
  - fold (available (list_to_set names) staff_list). by rewrite for_rooms_greedy.
Qed.

Lemma emit_take_front (r : RoomRequirement) (current : list Staff) :
  emit (r, take_front r current) =
    match eligible r current with
    | [] => []
    | _ :: _ => [mkAssignment (room_no r) (take_front r current)]
    end.
Proof.
  unfold emit, take_front, required_count. cbn [fst snd].
  destruct (eligible r current); [by rewrite take_nil|].
  by destruct (single_staff r).
Qed.

Lemma emitted_greedy_split (pool : list Staff) (pre post : list RoomRequirement)
    (r : RoomRequirement) :
  emitted (greedy pool (pre ++ r :: post)) =
    emitted (greedy pool pre)
    ++ emit (r, take_front r (pool_after pool pre))
    ++ emitted (greedy (pool_after pool (pre ++ [r])) post).
Proof.
  rewrite greedy_app, emitted_app. f_equal.
  cbn [greedy]. unfold emitted at 1. cbn [fmap list_fmap concat].
  rewrite pool_after_app. done.
Qed.

Lemma assigned_submseteq (pool : list Staff) (reqs : list RoomRequirement) :
  concat (staff <$> emitted (greedy pool reqs)) ⊆+ pool.
Proof.
  rewrite emitted_staff. rewrite (greedy_perm pool reqs) at 2.
  apply submseteq_inserts_r. done.
Qed.

Lemma available_sublist (excluded : gset string) (staff_list : list Staff) :
  available excluded staff_list `sublist_of` staff_list.
Proof. apply sublist_filter. Qed.

Lemma NoDup_submseteq_down (l k : list string) : l ⊆+ k → NoDup k → NoDup l.
Proof.
  intros [k' Hk]%submseteq_Permutation Hnd.
  rewrite Hk in Hnd. by apply NoDup_app in Hnd as [? _].
Qed.

Section Allocation.

Variable shuffle : list Staff → list Staff.
Hypothesis shuffle_perm : ∀ l, shuffle l ≡ₚ l.

Lemma shuffle_nil : shuffle [] = [].
Proof. apply Permutation_nil_r, shuffle_perm. Qed.

Lemma assigned_from_staff_list (excluded : gset string)
    (staff_list : list Staff) (reqs : list RoomRequirement) :
  concat (staff <$> emitted (greedy (shuffle (available excluded staff_list)) reqs))
    ⊆+ staff_list.
Proof.
  etrans; [apply assigned_submseteq|].
  rewrite shuffle_perm. apply sublist_submseteq, available_sublist.
Qed.

(** C4. The rooms are served strictly in list order, one after the other:
    the loop of [allocate_staff] returns, without raising, what the greedy
    policy [greedy] yields (the front [required_count] members of the
    eligible part of the current pool, for each room in turn, with the rooms
    that got nobody left out of [allotments]) and the pool it leaves.  What a
    room gets depends on the rooms before it only, never on a later one.  The
    members taken for a room keep the order of the pool, and the pool handed
    to the next room is the current pool without them. *)
Theorem rooms_served_greedily_in_order (pool : list Staff)
    (pre post : list RoomRequirement) (r : RoomRequirement) :
  for_rooms (pre ++ r :: post) ([], pool) =
    Ok (emitted (greedy pool (pre ++ r :: post)),
        pool_after pool (pre ++ r :: post))
  ∧ greedy pool (pre ++ r :: post) =
      greedy pool pre
      ++ (r, take (if single_staff r then 1 else 2)
               (eligible r (pool_after pool pre)))
      :: greedy (pool_after pool (pre ++ [r])) post
  ∧ take_front r pool `sublist_of` pool
  ∧ pool ≡ₚ take_front r pool ++ pool_after pool [r].
Proof.
  split; [|split; [|split]].
  - by rewrite for_rooms_greedy.
  - rewrite greedy_app. cbn [greedy]. by rewrite pool_after_app.
  - apply take_front_sublist.
  - apply room_served_perm.
Qed.

(** C1 (as amended). With the exclusion file absent or readable the call
    never raises.  A room for which at least one eligible member is left when
    its turn comes contributes exactly one assignment, in list order; a room
    for which none is left contributes no assignment at all.  With an empty
    staff list the result is the empty list. *)
Theorem one_assignment_per_staffed_room (file : excluded_file)
    (excluded : gset string) (staff_list : list Staff)
    (pre post classes_list : list RoomRequirement) (r : RoomRequirement)
    (date : string) :
  exclusion_set file = Some excluded →
  let pool := shuffle (available excluded staff_list) in
  let current := pool_after pool pre in
  allocate_staff shuffle file staff_list (pre ++ r :: post) date =
    Ok (emitted (greedy pool pre)
        ++ match eligible r current with
           | [] => []
           | _ :: _ => [mkAssignment (room_no r) (take_front r current)]
           end
        ++ emitted (greedy (pool_after pool (pre ++ [r])) post))
  ∧ allocate_staff shuffle file [] classes_list date = Ok [].
Proof.
  intros Hfile pool current. split.
  - rewrite (allocate_staff_run _ _ _ _ _ _ Hfile).
    fold pool. by rewrite emitted_greedy_split, emit_take_front.
  - rewrite (allocate_staff_run _ _ _ _ _ _ Hfile).
    unfold available. rewrite filter_nil, shuffle_nil. by rewrite greedy_nil.
Qed.

(** C2 (as amended). For a girls-only room, let [women] be the female members
    of the pool at the moment the room is served.  If there is none, the room
    gets no assignment.  Otherwise it gets one assignment whose members are
    the first [required_count] of [women]: all of them female, and
    [min required_count (length women)] many, that is all the remaining women
    when these are fewer than [required_count]. *)
Theorem girls_only_room_gets_remaining_women (file : excluded_file)
    (excluded : gset string) (staff_list : list Staff)
    (pre post : list RoomRequirement) (r : RoomRequirement) (date : string) :
  exclusion_set file = Some excluded →
  girls_only r = true →
  let pool := shuffle (available excluded staff_list) in
  let current := pool_after pool pre in
  let women := filter (λ s, is_female s) current in
  let taken := take (required_count r) women in
  allocate_staff shuffle file staff_list (pre ++ r :: post) date =
    Ok (emitted (greedy pool pre)
        ++ (if decide (women = []) then []
            else [mkAssignment (room_no r) taken])
        ++ emitted (greedy (pool_after pool (pre ++ [r])) post))
  ∧ Forall (λ s, upper (staff_gender s) ∈ ["F"; "FEMALE"]) taken
  ∧ length taken = required_count r `min` length women.
Proof.
  intros Hfile Hgirls pool current women taken. split; [|split].
  - rewrite (allocate_staff_run _ _ _ _ _ _ Hfile).
    fold pool. rewrite emitted_greedy_split, emit_take_front.
    fold current. unfold take_front, eligible. rewrite Hgirls.
    fold women. fold taken. by destruct women.
  - apply Forall_take. apply Forall_forall. intros s Hs.
    apply list_elem_of_filter in Hs as [Hs _].
    unfold is_female in Hs. by apply bool_decide_unpack in Hs.
  - apply length_take.
Qed.

(** C3. Every member of the staff list is assigned at most once in one run:
    the members of all the assignments together form a sub-multiset of the
    staff list.  Hence, when the names of the staff list are pairwise
    distinct, no name occurs twice among the assignments of the run, neither
    in two rooms nor twice in one. *)
Theorem no_staff_in_two_rooms (file : excluded_file) (excluded : gset string)
    (staff_list : list Staff) (classes_list : list RoomRequirement)
    (date : string) :
  exclusion_set file = Some excluded →
  ∃ allotments,
    allocate_staff shuffle file staff_list classes_list date = Ok allotments
    ∧ concat (staff <$> allotments) ⊆+ staff_list
    ∧ (NoDup (staff_name <$> staff_list) →
       NoDup (staff_name <$> concat (staff <$> allotments))).
Proof.
  intros Hfile. eexists. split; [by apply allocate_staff_run|].
  pose proof (assigned_from_staff_list excluded staff_list classes_list) as Hsub.
  split; [done|]. intros Hnames.
  eapply NoDup_submseteq_down; [|done]. by apply fmap_submseteq.
Qed.

(** C5. The pool the rooms are served from is a reordering of the staff list
    without the members whose trimmed name is in the exclusion set.  The
    trimmed name is the name without the white space around it: the name is
    white space, then the trimmed name, then white space, and the trimmed
    name neither starts nor ends with a white-space character.  A member of
    the staff list is in the pool exactly when the trimmed name is not
    excluded, and every member of every assignment comes from the staff list
    and has a trimmed name outside the exclusion set. *)
Theorem excluded_staff_never_assigned (file : excluded_file)
    (excluded : gset string) (staff_list : list Staff)
    (classes_list : list RoomRequirement) (date : string) :
  exclusion_set file = Some excluded →
  let pool := shuffle (available excluded staff_list) in
  pool ≡ₚ filter (λ s, strip (staff_name s) ∉ excluded) staff_list
  ∧ Forall (λ s, trimmed_name (staff_name s) (strip (staff_name s))
                 ∧ (s ∈ pool ↔ strip (staff_name s) ∉ excluded)) staff_list
  ∧ ∃ allotments,
      allocate_staff shuffle file staff_list classes_list date = Ok allotments
      ∧ allotments = emitted (greedy pool classes_list)
      ∧ Forall (λ a, Forall (λ s, s ∈ staff_list
                                  ∧ strip (staff_name s) ∉ excluded) (staff a))
          allotments.
Proof.
  intros Hfile pool. split; [apply shuffle_perm|]. split.
  { apply Forall_forall. intros s Hs. split; [apply strip_trimmed_name|].
    unfold pool. rewrite shuffle_perm. unfold available.
    rewrite list_elem_of_filter. tauto. }
  eexists. split; [by apply allocate_staff_run|]. split; [done|].
  fold pool.
  pose proof (assigned_submseteq pool classes_list) as Hsub.
  apply Forall_forall. intros a Ha. apply Forall_forall. intros s Hs.
  assert (s ∈ pool) as Hpool.
  { eapply elem_of_submseteq; [|exact Hsub].
    apply list_elem_of_In, in_concat. exists (staff a).
    split; apply list_elem_of_In; [by apply list_elem_of_fmap_2 | done]. }
  unfold pool in Hpool. rewrite shuffle_perm in Hpool.
  apply list_elem_of_filter in Hpool as [? ?]. done.
Qed.

(** The two ways the read of the exclusion file can miss a list.  A file
    that is not there is the same as an empty exclusion list.  A file that is
    there but cannot be read makes the call raise: the read is not guarded by
    a handler of its own, and the handler of [allocate_staff] re-raises. *)
Theorem unreadable_exclusions_are_raised (staff_list : list Staff)
    (classes_list : list RoomRequirement) (date : string) :
  allocate_staff shuffle FileUnreadable staff_list classes_list date
    = Raise ReadFailure
  ∧ allocate_staff shuffle FileAbsent staff_list classes_list date
    = Ok (emitted (greedy (shuffle staff_list) classes_list))
  ∧ allocate_staff shuffle FileAbsent staff_list classes_list date
    = allocate_staff shuffle (FileNames []) staff_list classes_list date.
Proof.
  split; [done|]. split.
  - rewrite (allocate_staff_run _ FileAbsent ∅) by done.
    by rewrite available_empty.
  - rewrite (allocate_staff_run _ FileAbsent ∅) by done.
    by rewrite (allocate_staff_run _ (FileNames []) ∅) by done.
Qed.

End Allocation.

(** ** The engine on concrete staff lists *)

(** The draw that leaves the list as it is. *)
Lemma id_perm (l : list Staff) : id l ≡ₚ l.
Proof. reflexivity. Qed.

Example scenario_two_rooms :
  allocate_staff id FileAbsent [staff_A; staff_B; staff_C]
    [mkRoom "101" true true; room_102] "2024-05-01" =
  Ok [mkAssignment "101" [staff_A]; mkAssignment "102" [staff_B; staff_C]].
Proof. reflexivity. Qed.

Example scenario_reversed_draw :
  allocate_staff reverse FileAbsent [staff_A; staff_B; staff_C]
    [mkRoom "101" true true; room_102] "2024-05-01" =
  Ok [mkAssignment "101" [staff_C]; mkAssignment "102" [staff_B; staff_A]].
Proof. reflexivity. Qed.

Example strip_ascii : strip "  a b  " = "a b".
Proof. vm_compute. reflexivity. Qed.

Example strip_no_break_space : strip (bytes [32; 65; 194; 160]) = "A".
Proof. vm_compute. reflexivity. Qed.

Example white_space_characters :
  length white_space = 29
  ∧ is_space (bytes [194; 133]) = true      (* U+0085 *)
  ∧ is_space (bytes [226; 128; 175]) = true (* U+202F *)
  ∧ is_space (bytes [226; 128; 139]) = false (* U+200B, zero width space *)
  ∧ is_space "A" = false.
Proof. vm_compute. repeat split. Qed.

Example strip_keeps_inner_space : strip (bytes [65; 194; 160; 66]) = bytes [65; 194; 160; 66].
Proof. vm_compute. reflexivity. Qed.

Example strip_all_space : strip (bytes [9; 226; 128; 131; 227; 128; 128; 10]) = "".
Proof. vm_compute. reflexivity. Qed.

Example scenario_exclusion :
  allocate_staff id (FileNames ["A"]) [staff_A; staff_B] [room_X] "2024-05-01" =
  Ok [mkAssignment "X" [staff_B]].
Proof. vm_compute. reflexivity. Qed.

(** C1, counterexample. With an empty staff list and the single room "X"
    the call returns the empty list, not an assignment with no staff. *)
Lemma empty_pool_emits_no_assignment :
  allocate_staff id FileAbsent [] [room_X] "2024-05-01" = Ok []
  ∧ allocate_staff id FileAbsent [] [room_X] "2024-05-01"
    ≠ Ok [mkAssignment "X" []].
Proof. split; [reflexivity | discriminate]. Qed.

Lemma one_assignment_per_staffed_room_witness :
  (∀ l : list Staff, id l ≡ₚ l)
  ∧ exclusion_set (FileNames ["A"]) = Some (list_to_set ["A"])
  ∧ allocate_staff id (FileNames ["A"]) [staff_A; staff_B; staff_C]
      [room_100; room_101; room_102] "2024-05-01"
    = Ok [mkAssignment "100" [staff_C]; mkAssignment "102" [staff_B]]
  ∧ allocate_staff id (FileNames ["A"]) [] [room_X] "2024-05-01" = Ok [].
Proof.
  split; [intros l; reflexivity|]. split; [reflexivity|].
  pose proof (one_assignment_per_staffed_room id id_perm (FileNames ["A"])
                (list_to_set ["A"]) [staff_A; staff_B; staff_C]
                [room_100] [room_102] [room_X] room_101 "2024-05-01"
                eq_refl) as H.
  vm_compute in H. exact H.
Defined.

(** C2, counterexample. A girls-only room served when no woman is left gets
    no assignment: there is no entry for room "101", so none with zero
    members either. *)
Lemma girls_only_room_without_women_has_no_assignment :
  ¬ ∃ allotments a,
      allocate_staff id FileAbsent [staff_B] [mkRoom "101" true true]
        "2024-05-01" = Ok allotments
      ∧ a ∈ allotments ∧ a_room_no a = "101" ∧ length (staff a) = 0.
Proof.
  intros (allotments & a & Hrun & Hin & _).
  vm_compute in Hrun. injection Hrun as <-. by apply elem_of_nil in Hin.
Qed.

Lemma girls_only_room_gets_remaining_women_witness :
  exclusion_set FileAbsent = Some ∅
  ∧ girls_only room_101 = true
  ∧ allocate_staff id FileAbsent [staff_A; staff_B; staff_C]
      [room_100; room_101; room_102] "2024-05-01"
    = Ok [mkAssignment "100" [staff_A]; mkAssignment "101" [staff_C];
          mkAssignment "102" [staff_B]].
Proof.
  split; [reflexivity|]. split; [reflexivity|].
  destruct (girls_only_room_gets_remaining_women id FileAbsent ∅
              [staff_A; staff_B; staff_C] [room_100] [room_102] room_101
              "2024-05-01" eq_refl eq_refl) as [H _].
  exact H.
Defined.

Lemma no_staff_in_two_rooms_witness :
  (∀ l : list Staff, id l ≡ₚ l)
  ∧ exclusion_set FileAbsent = Some ∅
  ∧ ∃ allotments,
      allocate_staff id FileAbsent [staff_A; staff_B; staff_C]
        [room_100; room_101; room_102] "2024-05-01" = Ok allotments
      ∧ concat (staff <$> allotments) ⊆+ [staff_A; staff_B; staff_C]
      ∧ NoDup (staff_name <$> concat (staff <$> allotments)).
Proof.
  assert (NoDup (staff_name <$> [staff_A; staff_B; staff_C])) as Hnames.
  { apply (bool_decide_unpack _). vm_compute. exact I. }
  split; [intros l; reflexivity|]. split; [reflexivity|].
  destruct (no_staff_in_two_rooms id id_perm FileAbsent ∅
              [staff_A; staff_B; staff_C] [room_100; room_101; room_102]
              "2024-05-01" eq_refl) as (allotments & Hrun & Hsub & Hnodup).
  exists allotments. split; [exact Hrun|]. split; [exact Hsub|].
  exact (Hnodup Hnames).
Defined.

Lemma excluded_staff_never_assigned_witness :
  (∀ l : list Staff, id l ≡ₚ l)
  ∧ exclusion_set (FileNames ["A"]) = Some (list_to_set ["A"])
  ∧ strip (staff_name staff_A_padded) = "A"
  ∧ allocate_staff id (FileNames ["A"]) [staff_A_padded; staff_B] [room_X]
      "2024-05-01" = Ok [mkAssignment "X" [staff_B]].
Proof.
  split; [intros l; reflexivity|]. split; [reflexivity|].
  split; [vm_compute; reflexivity|].
  destruct (excluded_staff_never_assigned id id_perm (FileNames ["A"])
              (list_to_set ["A"]) [staff_A_padded; staff_B] [room_X]
              "2024-05-01" eq_refl) as (_ & _ & allotments & Hrun & Heq & _).
  rewrite Hrun, Heq. vm_compute. reflexivity.
Defined.

(** C6, the code at the failing input.  The exclusion file is there but
    cannot be read; the staff list is A, B and the only room is "X".  The call
    raises and returns no allotment.  Falling back to the empty exclusion
    set, as the other three readers of the file do, would have given the
    allotment the call returns when the file is not there. *)
Lemma unreadable_exclusions_give_no_allotment :
  allocate_staff id FileUnreadable [staff_A; staff_B] [room_X] "2024-05-01"
    = Raise ReadFailure
  ∧ allocate_staff id FileAbsent [staff_A; staff_B] [room_X] "2024-05-01"
    = Ok [mkAssignment "X" [staff_A; staff_B]].
Proof. split; reflexivity. Qed.

(** * Properties of the requirement aggregator *)

Section Aggregation.

Import Aggregator.
Local Open Scope Z_scope.

Lemma sum_headcount_cons (r : RoomRequirement) (reqs : list RoomRequirement) :
  sum_headcount (r :: reqs) = headcount r + sum_headcount reqs.
Proof. reflexivity. Qed.

Lemma female_required_cons (r : RoomRequirement) (reqs : list RoomRequirement) :
  female_required_of (r :: reqs) =
    (if girls_only r then headcount r else 0) + female_required_of reqs.
Proof.
  unfold female_required_of. destruct (girls_only r) eqn:Hg.
  - rewrite filter_cons_True by done. apply sum_headcount_cons.
  - rewrite filter_cons_False by (rewrite Hg; done). done.
Qed.

Lemma count_rooms_sums (room_frames : gmap string RoomFrame)
    (available_classes : list string) (reqs : list RoomRequirement)
    (total female : Z) :
  requirements room_frames available_classes = Some reqs →
  count_rooms room_frames available_classes total female =
    Some (total + total_required_of reqs, female + female_required_of reqs).
Proof.
  revert reqs total female.
  induction available_classes as [|room rest IH]; intros reqs total female Hreqs;
    cbn [requirements count_rooms] in *.
  - injection Hreqs as <-. unfold total_required_of, female_required_of.
    rewrite filter_nil. cbn. by rewrite !Z.add_0_r.
  - destruct (room_frames !! room) as [frame|]; [|done].
    destruct (requirements room_frames rest) as [rs|]; [|done].
    injection Hreqs as <-.
    unfold total_required_of. rewrite female_required_cons, sum_headcount_cons.
    unfold headcount. cbn [single_staff girls_only].
    destruct (single_staff_var frame), (girls_only_var frame);
      rewrite (IH rs) by done; unfold total_required_of; do 2 f_equal; lia.
Qed.

(** C7. When every room of [available_classes] has its frame, the aggregator
    returns the total head count (1 for a single-staff room, 2 otherwise),
    the same sum over the girls-only rooms, and their difference.  Whatever
    the widgets are, the first component of the returned triple is the sum of
    the other two. *)
Theorem calculate_staff_requirements_sums (room_frames : gmap string RoomFrame)
    (available_classes : list string) (reqs : list RoomRequirement) :
  requirements room_frames available_classes = Some reqs →
  calculate_staff_requirements room_frames available_classes =
    (total_required_of reqs, female_required_of reqs,
     total_required_of reqs - female_required_of reqs)
  ∧ ∀ (frames : gmap string RoomFrame) (classes : list string),
      match calculate_staff_requirements frames classes with
      | (total_required, female_required, male_possible) =>
          male_possible + female_required = total_required
      end.
Proof.
  intros Hreqs. split.
  - unfold calculate_staff_requirements.
    by rewrite (count_rooms_sums _ _ reqs 0 0 Hreqs), !Z.add_0_l.
  - intros frames classes. unfold calculate_staff_requirements.
    destruct (count_rooms frames classes 0 0) as [[t f]|]; lia.
Qed.

End Aggregation.

Example aggregate_three_rooms :
  Aggregator.calculate_staff_requirements sample_frames ["101"; "102"; "103"]
    = (5, 3, 2)%Z.
Proof. vm_compute. reflexivity. Qed.

Example aggregate_missing_frame :
  Aggregator.calculate_staff_requirements sample_frames ["101"; "104"]
    = (0, 0, 0)%Z.
Proof. vm_compute. reflexivity. Qed.

Lemma calculate_staff_requirements_sums_witness :
  Aggregator.requirements sample_frames ["101"; "102"; "103"]
    = Some [mkRoom "101" true true; mkRoom "102" false false;
            mkRoom "103" true false]
  ∧ Aggregator.calculate_staff_requirements sample_frames ["101"; "102"; "103"]
    = (5, 3, 2)%Z.
Proof.
  assert (Aggregator.requirements sample_frames ["101"; "102"; "103"]
            = Some [mkRoom "101" true true; mkRoom "102" false false;
                    mkRoom "103" true false]) as Hreqs.
  { vm_compute. reflexivity. }
  split; [exact Hreqs|].
  destruct (calculate_staff_requirements_sums sample_frames
              ["101"; "102"; "103"] _ Hreqs) as [H _].
  rewrite H. vm_compute. reflexivity.
Defined.

(** * Properties of the configuration store *)

Section Store.

Import ConfigStore.

(** C8. After [set_date_config self date config], [get_date_config] on the
    same date returns [config] itself, whether or not the dump to the file
    went through, so in particular when it did. *)
Theorem set_then_get_returns_config (self : ConfigurationManager)
    (date : string) (config : json) (w : write_outcome) (disk : classes_file) :
  let '(saved, self', disk') := set_date_config self date config w disk in
  get_date_config self' date = config.
Proof.
  unfold set_date_config, get_date_config. destruct w; simpl;
    by rewrite lookup_insert_eq.
Qed.

(** C9. When the write fails, [set_date_config] returns [False]; the map in
    memory holds the new entry for [date] and every other entry as before;
    the file is either untouched or left with a partial dump. *)
Theorem failed_write_returns_false (self : ConfigurationManager)
    (date : string) (config : json) (w : write_outcome) (disk : classes_file) :
  w ≠ WriteCompletes →
  let '(saved, self', disk') := set_date_config self date config w disk in
  saved = false
  ∧ configurations self' = <[date := config]> (configurations self)
  ∧ get_date_config self' date = config
  ∧ delete date (configurations self') = delete date (configurations self)
  ∧ (disk' = disk ∨ disk' = FilePartial).
Proof.
  intros Hw. unfold set_date_config, get_date_config.
  destruct w; [done| |]; simpl;
    rewrite lookup_insert_eq, delete_insert_eq; auto 10.
Qed.

(** C10. [clear_configurations] returns nothing, and what it returns and
    leaves in memory does not depend on how the write went: the map is empty
    and every [get_date_config] yields the default.  When the write is
    refused the file keeps what it held. *)
Theorem clear_drops_memory_silently (self : ConfigurationManager)
    (w : write_outcome) (disk : classes_file) (date : string) :
  let '(res, self', disk') := clear_configurations self w disk in
  res = tt
  ∧ configurations self' = ∅
  ∧ get_date_config self' date = default_config
  ∧ (res, self') = (clear_configurations self WriteCompletes disk).1
  ∧ clear_configurations self WriteRefused disk = (tt, mkManager ∅, disk)
  ∧ clear_configurations self WriteInterrupted disk = (tt, mkManager ∅, FilePartial)
  ∧ clear_configurations self WriteCompletes disk = (tt, mkManager ∅, FileHolds ∅).
Proof.
  unfold clear_configurations, get_date_config. destruct w; simpl;
    rewrite lookup_empty; auto 10.
Qed.

End Store.

Lemma failed_write_returns_false_witness :
  ConfigStore.WriteInterrupted ≠ ConfigStore.WriteCompletes
  ∧ (ConfigStore.set_date_config sample_store "2024-05-02" sample_config
       ConfigStore.WriteInterrupted
       (ConfigStore.FileHolds (ConfigStore.configurations sample_store))).1.1
    = false.
Proof.
  assert (ConfigStore.WriteInterrupted ≠ ConfigStore.WriteCompletes) as Hw
    by discriminate.
  split; [exact Hw|].
  pose proof (failed_write_returns_false sample_store "2024-05-02"
                sample_config ConfigStore.WriteInterrupted
                (ConfigStore.FileHolds (ConfigStore.configurations sample_store))
                Hw) as H.
  simpl in H. destruct H as [H _]. exact H.
Defined.

Example clear_keeps_old_file :
  let disk := ConfigStore.FileHolds (ConfigStore.configurations sample_store) in
  let '(_, self', disk') :=
    ConfigStore.clear_configurations sample_store ConfigStore.WriteRefused disk in
  ConfigStore.get_date_config self' "2024-05-01" = ConfigStore.default_config
  ∧ disk' = ConfigStore.FileHolds {["2024-05-01" := sample_config]}.
Proof. split; reflexivity. Qed.

(** * Further properties of the allocation engine *)

Import Staffing.

Lemma filter_keeps_all `{!∀ s : Staff, Decision (P s)} (l : list Staff) :
  Forall P l → filter P l = l.
Proof.
  induction 1 as [|x l Hx Hl IH]; [done|].
  rewrite filter_cons_True by done. by f_equal.
Qed.

Section EngineBounds.

Local Open Scope nat_scope.

Lemma sum_required_cons (r : RoomRequirement) (rs : list RoomRequirement) :
  sum_list (required_count <$> r :: rs)
    = required_count r + sum_list (required_count <$> rs).
Proof. reflexivity. Qed.

Lemma take_front_length (r : RoomRequirement) (pool : list Staff) :
  length (take_front r pool) = required_count r `min` length (eligible r pool).
Proof. apply length_take. Qed.

Lemma required_count_pos (r : RoomRequirement) : 1 ≤ required_count r ≤ 2.
Proof. unfold required_count. destruct (single_staff r); lia. Qed.

Lemma room_served_length (r : RoomRequirement) (pool : list Staff) :
  length pool = length (take_front r pool) + length (pool_after pool [r]).
Proof.
  rewrite (room_served_perm r pool) at 1. by rewrite length_app.
Qed.

Lemma room_served_women (r : RoomRequirement) (pool : list Staff) :
  length (women pool) =
    length (women (take_front r pool)) + length (women (pool_after pool [r])).
Proof.
  unfold women. rewrite (room_served_perm r pool) at 1.
  by rewrite filter_app, length_app.
Qed.

Lemma women_take_front (r : RoomRequirement) (pool : list Staff) :
  girls_only r = true → women (take_front r pool) = take_front r pool.
Proof.
  intros Hg. unfold women, take_front, eligible. rewrite Hg.
  apply filter_keeps_all. apply Forall_take, Forall_forall.
  intros s Hs. by apply list_elem_of_filter in Hs as [? _].
Qed.

Lemma pool_after_cons (r : RoomRequirement) (rs : list RoomRequirement)
    (pool : list Staff) :
  pool_after pool (r :: rs) = pool_after (pool_after pool [r]) rs.
Proof. reflexivity. Qed.

Lemma emitted_cons (r : RoomRequirement) (rs : list RoomRequirement)
    (pool : list Staff) :
  emitted (greedy pool (r :: rs)) =
    emit (r, take_front r pool) ++ emitted (greedy (pool_after pool [r]) rs).
Proof. reflexivity. Qed.

Lemma emit_full (r : RoomRequirement) (pool : list Staff) :
  required_count r ≤ length (eligible r pool) →
  ∃ a, emit (r, take_front r pool) = [a] ∧ well_staffed a r
       ∧ length (take_front r pool) = required_count r.
Proof.
  intros Hle. pose proof (required_count_pos r) as Hpos.
  pose proof (take_front_length r pool) as Hlen.
  exists (mkAssignment (room_no r) (take_front r pool)).
  unfold emit, well_staffed. cbn [fst snd a_room_no staff].
  destruct (take_front r pool) as [|s l] eqn:Htaken; simpl in Hlen; [lia|].
  split; [done|]. split; [split; [done|simpl; lia] | simpl; lia].
Qed.

Lemma girls_rooms_full (gs : list RoomRequirement) (pool : list Staff) :
  Forall (λ r, girls_only r = true) gs →
  sum_list (required_count <$> gs) ≤ length (women pool) →
  Forall2 well_staffed (emitted (greedy pool gs)) gs
  ∧ length pool = sum_list (required_count <$> gs) + length (pool_after pool gs).
Proof.
  revert pool. induction gs as [|r gs IH]; intros pool Hgirls Hsum.
  - split; [constructor | done].
  - apply Forall_cons in Hgirls as [Hg Hgirls]. rewrite sum_required_cons in *.
    destruct (emit_full r pool) as (a & Hemit & Ha & Hlen).
    { unfold eligible. rewrite Hg. fold (women pool). lia. }
    pose proof (room_served_women r pool) as Hw.
    pose proof (room_served_length r pool) as Hl.
    rewrite (women_take_front r pool Hg), Hlen in Hw. rewrite Hlen in Hl.
    destruct (IH (pool_after pool [r]) Hgirls) as [Hrest Hlen']; [lia|].
    rewrite emitted_cons, Hemit, (pool_after_cons r gs pool). split.
    + by constructor.
    + lia.
Qed.

Lemma open_rooms_full (rs : list RoomRequirement) (pool : list Staff) :
  Forall (λ r, girls_only r = false) rs →
  sum_list (required_count <$> rs) ≤ length pool →
  Forall2 well_staffed (emitted (greedy pool rs)) rs.
Proof.
  revert pool. induction rs as [|r rs IH]; intros pool Hopen Hsum.
  - constructor.
  - apply Forall_cons in Hopen as [Ho Hopen]. rewrite sum_required_cons in *.
    destruct (emit_full r pool) as (a & Hemit & Ha & Hlen).
    { unfold eligible. rewrite Ho. lia. }
    pose proof (room_served_length r pool) as Hl. rewrite Hlen in Hl.
    rewrite emitted_cons, Hemit. constructor; [done|].
    apply IH; [done|lia].
Qed.

Lemma taken_total (pool : list Staff) (rs : list RoomRequirement) :
  length (concat (snd <$> greedy pool rs)) ≤ sum_list (required_count <$> rs).
Proof.
  revert pool. induction rs as [|r rs IH]; intros pool; [done|].
  rewrite sum_required_cons.
  cbn [greedy fmap list_fmap concat snd]. rewrite length_app.
  pose proof (take_front_length r pool). specialize (IH (pool_after pool [r])).
  cbn [pool_after] in IH.
  fold (fmap (M:=list) (@snd RoomRequirement (list Staff))
          (greedy (remove_taken (take_front r pool) pool) rs)). lia.
Qed.

Lemma total_required_sum (rs : list RoomRequirement) :
  Aggregator.total_required_of rs = Z.of_nat (sum_list (required_count <$> rs)).
Proof.
  unfold Aggregator.total_required_of, Aggregator.sum_headcount.
  induction rs as [|r rs IH]; [done|].
  rewrite sum_required_cons. cbn [fmap list_fmap foldr].
  fold (fmap (M:=list) Aggregator.headcount rs).
  rewrite IH, Nat2Z.inj_add. f_equal.
  unfold Aggregator.headcount, required_count. by destruct (single_staff r).
Qed.

Lemma men_untouched (r : RoomRequirement) (pool : list Staff) :
  girls_only r = true →
  filter (λ s, ¬ is_female s) (pool_after pool [r])
    = filter (λ s, ¬ is_female s) pool.
Proof.
  intros Hg. cbn [pool_after]. unfold take_front, eligible. rewrite Hg.
  generalize (required_count r). intros n.
  assert (∀ (s : Staff) (l : list Staff), is_female s →
            filter (λ s, ¬ is_female s) (remove_first s l)
              = filter (λ s, ¬ is_female s) l) as Hone.
  { intros s l Hs. induction l as [|y l IH]; [done|]. simpl.
    destruct (decide (y = s)) as [->|Hne].
    - by rewrite filter_cons_False by tauto.
    - destruct (decide (¬ is_female y)).
      + rewrite !filter_cons_True by done. by rewrite IH.
      + rewrite !filter_cons_False by done. exact IH. }
  assert (∀ (taken l : list Staff), Forall (λ s, is_female s) taken →
            filter (λ s, ¬ is_female s) (remove_taken taken l)
              = filter (λ s, ¬ is_female s) l) as Hall.
  { intros taken. induction taken as [|s taken IH]; intros l Hf; [done|].
    apply Forall_cons in Hf as [Hs Hf]. unfold remove_taken. cbn [foldl].
    fold (remove_taken taken (remove_first s l)).
    rewrite (IH _ Hf). by apply Hone. }
  apply Hall. apply Forall_take, Forall_forall. intros s Hs.
  by apply list_elem_of_filter in Hs as [? _].
Qed.

End EngineBounds.

Lemma emitted_shape (pool : list Staff) (rs : list RoomRequirement) :
  a_room_no <$> emitted (greedy pool rs) `sublist_of` room_no <$> rs
  ∧ Forall (λ a, ∃ r, r ∈ rs ∧ a_room_no a = room_no r
                      ∧ (1 ≤ length (staff a) ≤ required_count r)%nat)
      (emitted (greedy pool rs)).
Proof.
  revert pool. induction rs as [|r rs IH]; intros pool.
  - split; [done | constructor].
  - destruct (IH (pool_after pool [r])) as [Hsub Hall].
    rewrite emitted_cons, fmap_app, fmap_cons.
    assert (Forall (λ a, ∃ r', r' ∈ r :: rs ∧ a_room_no a = room_no r'
                         ∧ (1 ≤ length (staff a) ≤ required_count r')%nat)
              (emitted (greedy (pool_after pool [r]) rs))) as Hall'.
    { eapply Forall_impl; [exact Hall|].
      intros a (r' & Hin & Hname & Hlen). exists r'.
      split; [by right | done]. }
    unfold emit. cbn [fst snd].
    pose proof (take_front_length r pool) as Hlen.
    destruct (take_front r pool) as [|s l] eqn:Htaken.
    + split; [by apply sublist_cons | done].
    + split; [by apply sublist_skip|].
      constructor; [|done]. exists r. split; [left|]. split; [done|].
      cbn [staff]. simpl in Hlen. simpl. lia.
Qed.

Lemma men_untouched_rooms (girls : list RoomRequirement) (pool : list Staff) :
  Forall (λ r, girls_only r = true) girls →
  filter (λ s, ¬ is_female s) (pool_after pool girls)
    = filter (λ s, ¬ is_female s) pool.
Proof.
  revert pool. induction girls as [|r girls IH]; intros pool Hg; [done|].
  apply Forall_cons in Hg as [Hr Hg].
  rewrite pool_after_cons, (IH _ Hg). by apply men_untouched.
Qed.

Lemma greedy_fills_every_room (pool : list Staff)
    (girls others : list RoomRequirement) :
  Forall (λ r, girls_only r = true) girls →
  Forall (λ r, girls_only r = false) others →
  (sum_list (required_count <$> girls) ≤ length (women pool))%nat →
  (sum_list (required_count <$> girls ++ others) ≤ length pool)%nat →
  Forall2 well_staffed (emitted (greedy pool (girls ++ others))) (girls ++ others).
Proof.
  intros Hgirls Hothers Hwomen Htotal.
  rewrite fmap_app, sum_list_with_app in Htotal.
  destruct (girls_rooms_full girls pool Hgirls) as [Hfull Hleft]; [lia|].
  rewrite greedy_app, emitted_app. apply Forall2_app; [done|].
  apply open_rooms_full; [done|lia].
Qed.

Section EngineExtras.

Variable shuffle : list Staff → list Staff.
Hypothesis shuffle_perm : ∀ l, shuffle l ≡ₚ l.

(** X1. Nobody is lost and nobody is invented while the rooms are served:
    the members of all the assignments together with the pool left at the end
    are a reordering of the pool the loop started from. *)
Theorem staff_assigned_or_left (pool : list Staff)
    (classes_list : list RoomRequirement) :
  ∃ allotments rest,
    for_rooms classes_list ([], pool) = Ok (allotments, rest)
    ∧ concat (staff <$> allotments) ++ rest ≡ₚ pool.
Proof.
  exists (emitted (greedy pool classes_list)), (pool_after pool classes_list).
  split; [by rewrite for_rooms_greedy|].
  rewrite emitted_staff. symmetry. apply (greedy_perm pool classes_list).
Qed.

(** X2. The assignments follow the rooms: their room numbers are, in order,
    room numbers of the requirement list (a sub-list of them), and each
    assignment belongs to a requirement of the list and carries at least one
    and at most [required_count] members, so never more than two. *)
Theorem assignments_follow_rooms (file : excluded_file)
    (excluded : gset string) (staff_list : list Staff)
    (classes_list : list RoomRequirement) (date : string) :
  exclusion_set file = Some excluded →
  ∃ allotments,
    allocate_staff shuffle file staff_list classes_list date = Ok allotments
    ∧ a_room_no <$> allotments `sublist_of` room_no <$> classes_list
    ∧ Forall (λ a, ∃ r, r ∈ classes_list ∧ a_room_no a = room_no r
                        ∧ (1 ≤ length (staff a) ≤ required_count r)%nat
                        ∧ (length (staff a) ≤ 2)%nat) allotments.
Proof.
  intros Hfile. eexists. split; [by apply allocate_staff_run|].
  destruct (emitted_shape (shuffle (available excluded staff_list)) classes_list)
    as [Hsub Hall].
  split; [done|]. eapply Forall_impl; [exact Hall|].
  intros a (r & Hin & Hname & Hlen). exists r.
  pose proof (required_count_pos r). repeat split; try done; lia.
Qed.

(** X3. The number of staff placed in one run is at most the number of staff
    handed in, and at most the total the aggregator computes for the same
    requirement list. *)
Theorem assigned_count_bounded (file : excluded_file)
    (excluded : gset string) (staff_list : list Staff)
    (classes_list : list RoomRequirement) (date : string) :
  exclusion_set file = Some excluded →
  ∃ allotments,
    allocate_staff shuffle file staff_list classes_list date = Ok allotments
    ∧ (length (concat (staff <$> allotments)) ≤ length staff_list)%nat
    ∧ (Z.of_nat (length (concat (staff <$> allotments)))
         ≤ Aggregator.total_required_of classes_list)%Z.
Proof.
  intros Hfile. eexists. split; [by apply allocate_staff_run|]. split.
  - apply submseteq_length, assigned_from_staff_list, shuffle_perm.
  - rewrite emitted_staff, total_required_sum.
    apply Nat2Z.inj_le, taken_total.
Qed.

(** X4. When the girls-only rooms come first in the list, the available
    women cover what these rooms ask for, and the available staff cover what
    all rooms ask for, every room gets its assignment with exactly
    [required_count] members, in list order. *)
Theorem enough_staff_fills_every_room (file : excluded_file)
    (excluded : gset string) (staff_list : list Staff)
    (girls others : list RoomRequirement) (date : string) :
  exclusion_set file = Some excluded →
  Forall (λ r, girls_only r = true) girls →
  Forall (λ r, girls_only r = false) others →
  (sum_list (required_count <$> girls)
     ≤ length (women (available excluded staff_list)))%nat →
  (sum_list (required_count <$> girls ++ others)
     ≤ length (available excluded staff_list))%nat →
  ∃ allotments,
    allocate_staff shuffle file staff_list (girls ++ others) date = Ok allotments
    ∧ Forall2 well_staffed allotments (girls ++ others).
Proof.
  intros Hfile Hgirls Hothers Hwomen Htotal.
  eexists. split; [by apply allocate_staff_run|].
  apply greedy_fills_every_room; [done..| |].
  - unfold women in *. by rewrite shuffle_perm.
  - by rewrite shuffle_perm.
Qed.

(** X5. Girls-only rooms take women only: after any list of girls-only rooms
    has been served, the members of the pool that are not female are all
    still there, in their order. *)
Theorem girls_only_rooms_leave_the_others (pool : list Staff)
    (girls : list RoomRequirement) :
  Forall (λ r, girls_only r = true) girls →
  ∃ allotments rest,
    for_rooms girls ([], pool) = Ok (allotments, rest)
    ∧ filter (λ s, ¬ is_female s) rest = filter (λ s, ¬ is_female s) pool.
Proof.
  intros Hg. exists (emitted (greedy pool girls)), (pool_after pool girls).
  split; [by rewrite for_rooms_greedy|].
  by apply men_untouched_rooms.
Qed.

End EngineExtras.

Lemma assignments_follow_rooms_witness :
  exclusion_set (FileNames ["A"]) = Some (list_to_set ["A"])
  ∧ ∃ allotments,
      allocate_staff id (FileNames ["A"]) [staff_A; staff_B; staff_C]
        [room_100; room_101; room_102] "2024-05-01" = Ok allotments
      ∧ a_room_no <$> allotments `sublist_of` ["100"; "101"; "102"].
Proof.
  split; [reflexivity|].
  destruct (assignments_follow_rooms id (FileNames ["A"])
              (list_to_set ["A"]) [staff_A; staff_B; staff_C]
              [room_100; room_101; room_102] "2024-05-01" eq_refl)
    as (allotments & Hrun & Hsub & _).
  exists allotments. split; [exact Hrun | exact Hsub].
Defined.

Lemma assigned_count_bounded_witness :
  (∀ l : list Staff, id l ≡ₚ l)
  ∧ exclusion_set FileAbsent = Some ∅
  ∧ ∃ allotments,
      allocate_staff id FileAbsent [staff_A; staff_B; staff_C]
        [room_100; room_101; room_102] "2024-05-01" = Ok allotments
      ∧ (length (concat (staff <$> allotments)) ≤ 3)%nat
      ∧ (Z.of_nat (length (concat (staff <$> allotments))) ≤ 5)%Z.
Proof.
  split; [intros l; reflexivity|]. split; [reflexivity|].
  exact (assigned_count_bounded id id_perm FileAbsent ∅
           [staff_A; staff_B; staff_C] [room_100; room_101; room_102]
           "2024-05-01" eq_refl).
Defined.

Lemma enough_staff_fills_every_room_witness :
  (∀ l : list Staff, id l ≡ₚ l)
  ∧ exclusion_set FileAbsent = Some ∅
  ∧ Forall (λ r, girls_only r = true) [room_100]
  ∧ Forall (λ r, girls_only r = false) [room_102]
  ∧ ∃ allotments,
      allocate_staff id FileAbsent [staff_A; staff_B; staff_C]
        ([room_100] ++ [room_102]) "2024-05-01" = Ok allotments
      ∧ Forall2 well_staffed allotments ([room_100] ++ [room_102]).
Proof.
  assert (Forall (λ r, girls_only r = true) [room_100]) as Hg
    by (repeat constructor).
  assert (Forall (λ r, girls_only r = false) [room_102]) as Ho
    by (repeat constructor).
  split; [intros l; reflexivity|]. split; [reflexivity|].
  split; [exact Hg|]. split; [exact Ho|].
  apply (enough_staff_fills_every_room id id_perm FileAbsent ∅
           [staff_A; staff_B; staff_C] [room_100] [room_102] "2024-05-01"
           eq_refl Hg Ho).
  - vm_compute. lia.
  - vm_compute. lia.
Defined.

Lemma girls_only_rooms_leave_the_others_witness :
  Forall (λ r, girls_only r = true) [room_100; room_101]
  ∧ ∃ allotments rest,
      for_rooms [room_100; room_101] ([], [staff_B; staff_A; staff_C])
        = Ok (allotments, rest)
      ∧ filter (λ s, ¬ is_female s) rest = [staff_B].
Proof.
  assert (Forall (λ r, girls_only r = true) [room_100; room_101]) as Hg
    by (repeat constructor).
  split; [exact Hg|].
  exact (girls_only_rooms_leave_the_others [staff_B; staff_A; staff_C]
           [room_100; room_101] Hg).
Defined.

(** * Properties of the staff directory *)

Section DirectoryFacts.

Import Directory.
Local Open Scope nat_scope.

Lemma normalize_gender_cases (g : string) :
  normalize_gender g ∈ ["M"; "F"] →
  normalize_gender g = "M" ∨ normalize_gender g = "F".
Proof.
  intros Hin. apply elem_of_cons in Hin as [?|Hin]; [by left|].
  apply elem_of_cons in Hin as [?|Hin]; [by right|].
  by apply elem_of_nil in Hin.
Qed.

Lemma upload_row_normalised (dept : string) (row : string * string) (s : Staff) :
  upload_row dept row = Some s → normalised s.
Proof.
  unfold upload_row, normalised. cbn [staff_name staff_dept staff_gender].
  destruct (bool_decide (strip row.1 ≠ "")) eqn:Hname; [|done].
  destruct (bool_decide (normalize_gender (upper (strip row.2)) ∈ ["M"; "F"]))
    eqn:Hgender; [|done].
  intros [= <-]. cbn [staff_name staff_dept staff_gender].
  apply bool_decide_eq_true in Hname, Hgender.
  split; [done|]. split; [apply strip_idem|]. split; [apply strip_idem|].
  by apply normalize_gender_cases.
Qed.

Lemma process_sheets_normalised (departments : list (string * sheet))
    (staff_data out : list Staff) :
  Forall normalised staff_data →
  process_sheets departments staff_data = Some out →
  Forall normalised out.
Proof.
  revert staff_data.
  induction departments as [|[dept df] rest IH]; intros staff_data Hacc Hrun;
    cbn [process_sheets] in Hrun.
  - by injection Hrun as <-.
  - destruct df as [rows| |]; [|done|by eapply IH].
    eapply IH; [|exact Hrun]. apply Forall_app. split; [done|].
    apply Forall_forall. intros s Hs.
    apply list_elem_of_omap in Hs as (row & _ & Hrow).
    by eapply upload_row_normalised.
Qed.

Lemma normalised_gender (s : Staff) :
  normalised s →
  (is_female s = true ∧ is_male s = false ∧ staff_gender s = "F")
  ∨ (is_female s = false ∧ is_male s = true ∧ staff_gender s = "M").
Proof.
  intros (_ & _ & _ & [Hg|Hg]); unfold is_female, is_male; rewrite Hg;
    [right|left]; done.
Qed.

Lemma female_not_male (s : Staff) : is_female s → is_male s → False.
Proof.
  unfold is_female, is_male.
  intros Hf%bool_decide_unpack Hm%bool_decide_unpack.
  repeat (apply elem_of_cons in Hf as [Hf|Hf]);
    repeat (apply elem_of_cons in Hm as [Hm|Hm]);
    try (by apply elem_of_nil in Hf); try (by apply elem_of_nil in Hm);
    congruence.
Qed.

Lemma disjoint_counts (P Q : Staff → Prop) `{!∀ s, Decision (P s)}
    `{!∀ s, Decision (Q s)} (l : list Staff) :
  (∀ s, P s → Q s → False) →
  length (filter P l) + length (filter Q l) ≤ length l.
Proof.
  intros Hdisj. induction l as [|x l IH]; [done|].
  rewrite !filter_cons. destruct (decide (P x)), (decide (Q x)); simpl;
    [by destruct (Hdisj x) | lia..].
Qed.

Lemma exact_counts (P Q : Staff → Prop) `{!∀ s, Decision (P s)}
    `{!∀ s, Decision (Q s)} (l : list Staff) :
  Forall (λ s, (P s ∧ ¬ Q s) ∨ (¬ P s ∧ Q s)) l →
  length (filter P l) + length (filter Q l) = length l.
Proof.
  induction 1 as [|x l Hx Hl IH]; [done|].
  rewrite !filter_cons. destruct (decide (P x)), (decide (Q x)); simpl;
    [tauto | lia | lia | tauto].
Qed.

Lemma filter_agree (P Q : Staff → Prop) `{!∀ s, Decision (P s)}
    `{!∀ s, Decision (Q s)} (l : list Staff) :
  Forall (λ s, P s ↔ Q s) l → filter P l = filter Q l.
Proof.
  induction 1 as [|x l Hx Hl IH]; [done|].
  rewrite !filter_cons, IH.
  destruct (decide (P x)), (decide (Q x)); tauto.
Qed.

(** X6. Every record the upload writes to the staff file has a name that is
    not empty and carries no surrounding white space, a department without
    surrounding white space, and the gender "M" or "F"; and the upload never
    writes an empty list. *)
Theorem uploaded_staff_are_normalised (departments : list (string * sheet))
    (staff_data : list Staff) :
  upload_staff_file departments = Some staff_data →
  staff_data ≠ [] ∧ Forall normalised staff_data.
Proof.
  unfold upload_staff_file.
  destruct (process_sheets departments []) as [[|s l]|] eqn:Hrun; [done| |done].
  intros [= <-]. split; [done|].
  by eapply process_sheets_normalised; [constructor|].
Qed.

(** X7. On a list written by the upload the statistics add up: every member
    is counted as female or as male, never as both and never as neither. *)
Theorem uploaded_statistics_add_up (departments : list (string * sheet))
    (staff_data : list Staff) :
  upload_staff_file departments = Some staff_data →
  match get_staff_statistics (Some staff_data) with
  | (total_staff, female_staff, male_staff) =>
      total_staff = length staff_data
      ∧ female_staff + male_staff = total_staff
      ∧ female_staff = length (filter (λ s, staff_gender s = "F") staff_data)
  end.
Proof.
  intros [_ Hnorm]%uploaded_staff_are_normalised. cbn [get_staff_statistics].
  split; [done|]. split.
  - apply exact_counts. eapply Forall_impl; [exact Hnorm|].
    intros s [(Hf & Hm & _)|(Hf & Hm & _)]%normalised_gender;
      rewrite Hf, Hm; simpl; tauto.
  - f_equal. apply filter_agree. eapply Forall_impl; [exact Hnorm|].
    intros s [(Hf & _ & Hg)|(Hf & _ & Hg)]%normalised_gender;
      rewrite Hf, Hg; simpl; split; try tauto; done.
Qed.

(** X8. Whatever the staff file holds, nobody is counted twice: the female
    and the male count together never exceed the total, and an unreadable
    file gives three zeros. *)
Theorem statistics_never_overcount (staff_file : option (list Staff)) :
  match get_staff_statistics staff_file with
  | (total_staff, female_staff, male_staff) =>
      female_staff + male_staff ≤ total_staff
  end
  ∧ get_staff_statistics None = (0, 0, 0).
Proof.
  split; [|done]. destruct staff_file as [staff_data|]; [|simpl; lia].
  cbn [get_staff_statistics]. apply disjoint_counts.
  intros s. apply female_not_male.
Qed.

Lemma staff_counters_eq (file : excluded_file) (excluded : gset string)
    (staff_list : list Staff) :
  exclusion_set file = Some excluded →
  staff_counters (Some staff_list) file =
    (length staff_list,
     length (available excluded staff_list),
     length (women (available excluded staff_list)),
     length (filter (λ s, is_male s) (available excluded staff_list))).
Proof.
  intros Hfile. unfold women, available.
  destruct file as [|names|]; simpl in Hfile; [| |done];
    injection Hfile as <-; cbn [staff_counters];
    by rewrite !list_filter_filter.
Qed.

(** X9. The counters shown before the classes are configured describe the
    pool the engine will draw from: the available count is the size of the
    staff list without the excluded members, the female count is the number
    of women in it (those a girls-only room can take), and the female and
    male counts together never exceed the available count, which never
    exceeds the total. *)
Theorem counters_describe_the_pool (file : excluded_file)
    (excluded : gset string) (staff_list : list Staff) :
  exclusion_set file = Some excluded →
  match staff_counters (Some staff_list) file with
  | (total_staff, available_staff, female_staff, male_staff) =>
      total_staff = length staff_list
      ∧ available_staff = length (available excluded staff_list)
      ∧ female_staff = length (women (available excluded staff_list))
      ∧ female_staff + male_staff ≤ available_staff
      ∧ available_staff ≤ total_staff
  end.
Proof.
  intros Hfile. rewrite (staff_counters_eq _ _ _ Hfile).
  split; [done|]. split; [done|]. split; [done|]. split.
  - apply disjoint_counts. intros s. apply female_not_male.
  - apply length_filter.
Qed.

Lemma remove_name_perm (x : string) (l : list string) :
  x ∈ l → l ≡ₚ x :: remove_name x l.
Proof.
  induction l as [|y l IH]; intros Hin; [by apply elem_of_nil in Hin|].
  simpl. destruct (decide (y = x)) as [->|Hne]; [done|].
  apply elem_of_cons in Hin as [->|Hin]; [done|].
  rewrite (IH Hin) at 1. apply Permutation_swap.
Qed.

Lemma remove_name_last (x : string) (l : list string) :
  x ∉ l → remove_name x (l ++ [x]) = l.
Proof.
  induction l as [|y l IH]; intros Hnin; simpl.
  - by rewrite decide_True.
  - apply not_elem_of_cons in Hnin as [Hne Hnin].
    rewrite decide_False by done. by rewrite IH.
Qed.

Lemma existsb_is_name (staff_name : string) (names : list string) :
  existsb (is_name staff_name) (ConfigStore.JStr <$> names)
    = bool_decide (staff_name ∈ names).
Proof.
  induction names as [|y names IH]; [done|].
  cbn [fmap list_fmap existsb is_name].
  fold (fmap (M:=list) ConfigStore.JStr names). rewrite IH.
  destruct (decide (y = staff_name)) as [->|Hne].
  - rewrite (bool_decide_eq_true_2 (staff_name = staff_name)) by done.
    by rewrite (bool_decide_eq_true_2 (staff_name ∈ staff_name :: names))
      by left.
  - rewrite (bool_decide_eq_false_2 (y = staff_name)) by done. simpl.
    apply bool_decide_ext. rewrite elem_of_cons. split; [auto|].
    by intros [?|?].
Qed.

Lemma remove_entry_names (staff_name : string) (names : list string) :
  remove_entry staff_name (ConfigStore.JStr <$> names)
    = ConfigStore.JStr <$> remove_name staff_name names.
Proof.
  induction names as [|y names IH]; [done|].
  cbn [fmap list_fmap remove_entry remove_name is_name].
  fold (fmap (M:=list) ConfigStore.JStr names).
  destruct (decide (y = staff_name)) as [->|Hne].
  - by rewrite bool_decide_eq_true_2.
  - rewrite bool_decide_eq_false_2 by done. by rewrite IH.
Qed.

Lemma toggle_names (staff_name : string) (names : list string) :
  toggle_staff_allotment staff_name ConfigStore.WriteCompletes
    (StoreJson (ConfigStore.JList (ConfigStore.JStr <$> names)))
  = (Some tt,
     StoreJson (ConfigStore.JList
       (ConfigStore.JStr <$>
          (if bool_decide (staff_name ∈ names)
           then remove_name staff_name names
           else names ++ [staff_name])))).
Proof.
  unfold toggle_staff_allotment. rewrite existsb_is_name.
  destruct (bool_decide (staff_name ∈ names)).
  - by rewrite remove_entry_names.
  - by rewrite fmap_app.
Qed.

(** X10. With a list of distinct names in the file, a toggle flips the
    membership of the one name and of no other, and the list it writes has
    distinct names again. *)
Theorem toggle_flips_one_name (staff_name : string) (names : list string) :
  NoDup names →
  ∃ names',
    toggle_staff_allotment staff_name ConfigStore.WriteCompletes
      (StoreJson (ConfigStore.JList (ConfigStore.JStr <$> names)))
      = (Some tt, StoreJson (ConfigStore.JList (ConfigStore.JStr <$> names')))
    ∧ NoDup names'
    ∧ (staff_name ∈ names' ↔ staff_name ∉ names)
    ∧ ∀ other, other ≠ staff_name → (other ∈ names' ↔ other ∈ names).
Proof.
  intros Hnd. rewrite toggle_names.
  destruct (bool_decide (staff_name ∈ names)) eqn:Hin.
  - apply bool_decide_eq_true in Hin. eexists. split; [done|].
    pose proof (remove_name_perm staff_name names Hin) as Hp.
    rewrite Hp in Hnd. apply NoDup_cons in Hnd as [Hfresh Hnd'].
    split; [done|]. split; [tauto|].
    intros other Hne.
    assert (other ∈ names ↔ other ∈ staff_name :: remove_name staff_name names)
      as -> by (by rewrite <- Hp).
    rewrite elem_of_cons. tauto.
  - apply bool_decide_eq_false in Hin. eexists. split; [done|].
    split; [|split].
    + apply NoDup_app. split; [done|]. split; [|apply NoDup_singleton].
      intros n Hn ->%list_elem_of_singleton. done.
    + rewrite elem_of_app, list_elem_of_singleton. tauto.
    + intros other Hne. rewrite elem_of_app, list_elem_of_singleton. tauto.
Qed.

(** X11. Toggling the same name twice gives back the exclusion list up to
    order; when the name was not excluded before, it gives back the very
    same list. *)
Theorem toggle_twice_restores (staff_name : string) (names : list string) :
  NoDup names →
  ∃ names' names'',
    toggle_staff_allotment staff_name ConfigStore.WriteCompletes
      (StoreJson (ConfigStore.JList (ConfigStore.JStr <$> names)))
      = (Some tt, StoreJson (ConfigStore.JList (ConfigStore.JStr <$> names')))
    ∧ toggle_staff_allotment staff_name ConfigStore.WriteCompletes
        (StoreJson (ConfigStore.JList (ConfigStore.JStr <$> names')))
      = (Some tt, StoreJson (ConfigStore.JList (ConfigStore.JStr <$> names'')))
    ∧ names'' ≡ₚ names
    ∧ (staff_name ∉ names → names'' = names).
Proof.
  intros Hnd. eexists _, _. split; [apply toggle_names|].
  split; [apply toggle_names|].
  destruct (bool_decide (staff_name ∈ names)) eqn:Hin.
  - apply bool_decide_eq_true in Hin.
    pose proof (remove_name_perm staff_name names Hin) as Hp.
    assert (staff_name ∉ remove_name staff_name names) as Hout.
    { rewrite Hp in Hnd. by apply NoDup_cons in Hnd as [? _]. }
    rewrite (bool_decide_eq_false_2 _ Hout).
    split; [|done]. rewrite Hp at 2. by rewrite Permutation_app_comm.
  - apply bool_decide_eq_false in Hin.
    rewrite bool_decide_eq_true_2
      by (rewrite elem_of_app, list_elem_of_singleton; tauto).
    rewrite (remove_name_last _ _ Hin). done.
Qed.

End DirectoryFacts.

Section ToggleThenAllocate.

Import Directory.

Variable shuffle : list Staff → list Staff.
Hypothesis shuffle_perm : ∀ l, shuffle l ≡ₚ l.

Lemma assigned_are_available (excluded : gset string) (staff_list : list Staff)
    (classes_list : list RoomRequirement) :
  Forall (λ a, Forall (λ s, s ∈ available excluded staff_list) (staff a))
    (emitted (greedy (shuffle (available excluded staff_list)) classes_list)).
Proof.
  set (pool := shuffle (available excluded staff_list)).
  pose proof (assigned_submseteq pool classes_list) as Hsub.
  apply Forall_forall. intros a Ha. apply Forall_forall. intros s Hs.
  assert (s ∈ pool) as Hpool.
  { eapply elem_of_submseteq; [|exact Hsub].
    apply list_elem_of_In, in_concat. exists (staff a).
    split; apply list_elem_of_In; [by apply list_elem_of_fmap_2 | done]. }
  unfold pool in Hpool. by rewrite shuffle_perm in Hpool.
Qed.

Lemma names_of_app (l : list ConfigStore.json) (staff_name' : string) :
  staff_name' ∈ omap (λ v, match v with
                           | ConfigStore.JStr s => Some s
                           | _ => None
                           end) (l ++ [ConfigStore.JStr staff_name']).
Proof.
  apply list_elem_of_omap. exists (ConfigStore.JStr staff_name').
  split; [|done]. rewrite elem_of_app, list_elem_of_singleton. by right.
Qed.

(** X12. When the file is absent, cannot be parsed, or holds a JSON list
    without the name, a toggle of the name whose write completes leaves a list
    that ends with the name.  On that file the next allocation places nobody
    whose trimmed name is that name: it returns such an allotment when every
    element of the list can go into a set, and it raises, as it did before
    the toggle, when the list has an element that cannot. *)
Theorem toggled_name_is_never_assigned (staff_name' : string)
    (store : exclusion_store) (staff_list : list Staff)
    (classes_list : list RoomRequirement) (date : string) :
  (store = StoreAbsent ∨ store = StoreGarbled
   ∨ ∃ l, store = StoreJson (ConfigStore.JList l)
          ∧ existsb (is_name staff_name') l = false) →
  ∃ l',
    toggle_staff_allotment staff_name' ConfigStore.WriteCompletes store
      = (Some tt, StoreJson (ConfigStore.JList (l' ++ [ConfigStore.JStr staff_name'])))
    ∧ (forallb hashable l' = true →
       ∃ allotments,
         allocate_staff shuffle
           (list_as_engine_reads (l' ++ [ConfigStore.JStr staff_name']))
           staff_list classes_list date = Ok allotments
         ∧ Forall (λ a, Forall (λ s, strip (staff_name s) ≠ staff_name')
                          (staff a)) allotments)
    ∧ (forallb hashable l' = false →
       allocate_staff shuffle
         (list_as_engine_reads (l' ++ [ConfigStore.JStr staff_name']))
         staff_list classes_list date = Raise ReadFailure).
Proof.
  intros Hstore.
  assert (∃ l', toggle_staff_allotment staff_name' ConfigStore.WriteCompletes store
                = (Some tt, StoreJson (ConfigStore.JList
                                         (l' ++ [ConfigStore.JStr staff_name']))))
    as [l' Htoggle].
  { unfold toggle_staff_allotment.
    destruct Hstore as [->|[->|(l & -> & Hl)]].
    - by exists [].
    - by exists [].
    - exists l. by rewrite Hl. }
  exists l'. split; [exact Htoggle|].
  unfold list_as_engine_reads. rewrite forallb_app. cbn [forallb hashable].
  rewrite !andb_true_r. split; intros Hhash; rewrite Hhash; [|done].
  eexists. split; [by apply allocate_staff_run|].
  eapply Forall_impl; [apply assigned_are_available|].
  intros a Ha. eapply Forall_impl; [exact Ha|].
  intros s [Hs _]%list_elem_of_filter Heq. apply Hs.
  rewrite Heq. apply elem_of_list_to_set, names_of_app.
Qed.

End ToggleThenAllocate.

(** * Further properties of the configuration store *)

Section StoreFacts.

Import ConfigStore ConfigQueries.

Lemma get_all_dates_perm (self : ConfigurationManager) :
  get_all_dates self ≡ₚ (map_to_list (configurations self)).*1.
Proof. apply merge_sort_Permutation. Qed.

Lemma get_all_dates_elem (self : ConfigurationManager) (date : string) :
  date ∈ get_all_dates self ↔ is_Some (configurations self !! date).
Proof.
  rewrite get_all_dates_perm, list_elem_of_fmap. split.
  - intros ([d v] & -> & Hin). apply elem_of_map_to_list in Hin. by eexists.
  - intros [v Hv]. exists (date, v). split; [done|].
    by apply elem_of_map_to_list.
Qed.

Lemma get_all_dates_NoDup (self : ConfigurationManager) :
  NoDup (get_all_dates self).
Proof. rewrite get_all_dates_perm. apply NoDup_fst_map_to_list. Qed.

Lemma get_all_dates_sorted (self : ConfigurationManager) :
  StronglySorted String.le (get_all_dates self).
Proof. apply (StronglySorted_merge_sort _). Qed.

Lemma get_all_dates_determined (self self' : ConfigurationManager) :
  (∀ date, is_Some (configurations self !! date)
           ↔ is_Some (configurations self' !! date)) →
  get_all_dates self = get_all_dates self'.
Proof.
  intros Hsame.
  apply (StronglySorted_unique String.le);
    [apply get_all_dates_sorted | apply get_all_dates_sorted |].
  apply NoDup_Permutation; [apply get_all_dates_NoDup..|].
  intros date. by rewrite !get_all_dates_elem.
Qed.

Lemma insert_is_Some_iff (m : gmap string json) (date d : string) (config : json) :
  is_Some (<[date := config]> m !! d) ↔ d = date ∨ is_Some (m !! d).
Proof.
  rewrite lookup_insert_is_Some. split.
  - intros [->|[_ ?]]; auto.
  - intros [->|?]; [by left|]. destruct (decide (date = d)); auto.
Qed.

(** X13. [get_all_dates] lists exactly the dates that have a configuration,
    each once, in ascending order of the date strings; and
    [get_configured_dates] returns the same list. *)
Theorem get_all_dates_sorted_and_complete (self : ConfigurationManager) :
  StronglySorted String.le (get_all_dates self)
  ∧ NoDup (get_all_dates self)
  ∧ (∀ date, date ∈ get_all_dates self
             ↔ is_Some (configurations self !! date))
  ∧ get_configured_dates self = get_all_dates self.
Proof.
  split; [apply get_all_dates_sorted|]. split; [apply get_all_dates_NoDup|].
  split; [apply get_all_dates_elem | done].
Qed.

(** X14. After [set_date_config] the date is listed, together with the
    dates listed before and no other; after [clear_configurations] no date
    is listed.  Neither depends on how the write to the file went. *)
Theorem set_and_clear_update_the_dates (self : ConfigurationManager)
    (date : string) (config : json) (w : write_outcome) (disk : classes_file) :
  (∀ d, d ∈ get_all_dates (set_date_config self date config w disk).1.2
        ↔ d = date ∨ d ∈ get_all_dates self)
  ∧ get_all_dates (clear_configurations self w disk).1.2 = [].
Proof.
  split.
  - intros d. rewrite !get_all_dates_elem.
    unfold set_date_config.
    destruct w; cbn [save_configurations fst snd configurations];
      apply insert_is_Some_iff.
  - unfold clear_configurations.
    destruct w; cbn [save_configurations fst snd]; reflexivity.
Qed.

(** X15. Saving a configuration for a date that already has one replaces it
    and leaves the list of dates exactly as it was. *)
Theorem overwriting_keeps_the_dates (self : ConfigurationManager)
    (date : string) (config : json) (w : write_outcome) (disk : classes_file) :
  is_Some (configurations self !! date) →
  get_all_dates (set_date_config self date config w disk).1.2
    = get_all_dates self
  ∧ get_date_config (set_date_config self date config w disk).1.2 date = config.
Proof.
  intros Hset. split.
  - apply get_all_dates_determined. intros d.
    unfold set_date_config.
    destruct w; cbn [save_configurations fst snd configurations];
      rewrite insert_is_Some_iff; split; try tauto;
      intros [->|?]; done.
  - unfold set_date_config, get_date_config.
    destruct w; cbn [save_configurations fst snd configurations];
      by rewrite lookup_insert_eq.
Qed.

(** X16. Two saves in a row: in memory the second wins on the same date and
    both stand on different dates; and when the second write completes, the
    file holds the whole map, the entry of the first save included, even if
    the first write had failed. *)
Theorem second_save_persists_the_first (self : ConfigurationManager)
    (d1 d2 : string) (c1 c2 : json) (w1 : write_outcome) (disk : classes_file) :
  let '(_, self1, disk1) := set_date_config self d1 c1 w1 disk in
  let '(saved, self2, disk2) := set_date_config self1 d2 c2 WriteCompletes disk1 in
  saved = true
  ∧ get_date_config self2 d2 = c2
  ∧ get_date_config self2 d1 = (if decide (d1 = d2) then c2 else c1)
  ∧ disk2 = FileHolds (<[d2 := c2]> (<[d1 := c1]> (configurations self))).
Proof.
  unfold set_date_config, get_date_config.
  destruct w1; cbn [save_configurations configurations];
    (split; [done|]); (split; [by rewrite lookup_insert_eq|]);
    (split; [|done]);
    destruct (decide (d1 = d2)) as [->|Hne];
    rewrite ?lookup_insert_eq; try done;
    by rewrite lookup_insert_ne, lookup_insert_eq by done.
Qed.

End StoreFacts.

(** * Properties of the pages that drive the store *)

Section WorkflowFacts.

Import ConfigStore ConfigQueries Workflow.

Lemma dict_keys_set (k : string) (v : json) (d : list (string * json))
    (k' : string) :
  k' ∈ (dict_set k v d).*1 ↔ k' = k ∨ k' ∈ d.*1.
Proof.
  induction d as [|[k0 v0] d IH]; simpl.
  - rewrite list_elem_of_singleton, elem_of_nil. tauto.
  - destruct (decide (k0 = k)) as [->|Hne]; simpl.
    + rewrite !elem_of_cons. tauto.
    + rewrite !elem_of_cons, IH. tauto.
Qed.

Lemma dict_has_set_eq (k : string) (v : json) (d : list (string * json)) :
  dict_has k (dict_set k v d) = true.
Proof. apply bool_decide_eq_true, dict_keys_set. by left. Qed.

Lemma dict_has_set_ne (k k' : string) (v : json) (d : list (string * json)) :
  k' ≠ k → dict_has k' (dict_set k v d) = dict_has k' d.
Proof.
  intros Hne. apply bool_decide_ext. rewrite dict_keys_set. tauto.
Qed.

Lemma dict_get_set_eq (k : string) (v : json) (d : list (string * json)) :
  dict_get k (dict_set k v d) = Some v.
Proof.
  induction d as [|[k0 v0] d IH]; simpl.
  - by rewrite decide_True.
  - destruct (decide (k0 = k)) as [->|Hne]; simpl.
    + by rewrite decide_True.
    + by rewrite decide_False.
Qed.

Lemma dict_get_set_ne (k k' : string) (v : json) (d : list (string * json)) :
  k' ≠ k → dict_get k' (dict_set k v d) = dict_get k' d.
Proof.
  intros Hne. induction d as [|[k0 v0] d IH]; simpl.
  - by rewrite decide_False.
  - destruct (decide (k0 = k)) as [->|Hne0]; simpl.
    + by rewrite !decide_False.
    + destruct (decide (k0 = k')); [done | exact IH].
Qed.

Lemma check_rooms_room_json (rs : list Engine.RoomRequirement) :
  check_rooms (room_json <$> rs) = Some None.
Proof. induction rs as [|r rs IH]; [done|]. exact IH. Qed.

Lemma validate_default : validate_config default_config = (true, ConfigurationValid).
Proof. reflexivity. Qed.

Lemma set_empty_configs_lookup (dates : list (string * write_outcome))
    (self : ConfigurationManager) (disk : classes_file) (d : string) :
  configurations (set_empty_configs self dates disk).1 !! d =
    if bool_decide (d ∈ dates.*1) then Some default_config
    else configurations self !! d.
Proof.
  revert self disk. induction dates as [|[date w] rest IH]; intros self disk.
  - done.
  - cbn [set_empty_configs]. unfold set_date_config.
    destruct w; cbn [save_configurations]; rewrite IH; cbn [configurations];
      cbn [fmap list_fmap fst];
      (destruct (bool_decide (d ∈ rest.*1)) eqn:Hrest;
       [ apply bool_decide_eq_true in Hrest;
         by rewrite bool_decide_eq_true_2 by (by right)
       | apply bool_decide_eq_false in Hrest;
         destruct (decide (d = date)) as [->|Hne];
         [ rewrite lookup_insert_eq;
           by rewrite bool_decide_eq_true_2 by (by left)
         | rewrite lookup_insert_ne by done;
           rewrite bool_decide_eq_false_2; [done|];
           rewrite elem_of_cons; tauto ] ]).
Qed.

(** X17. When [save_selected_dates] goes through (some date is selected and
    the dates were written to the settings file), every earlier configuration
    is gone: exactly the selected dates are listed afterwards, and
    [get_date_config] returns the empty default configuration, which passes
    [validate_config], for every date. *)
Theorem selecting_dates_resets_the_store (self : ConfigurationManager)
    (w : write_outcome) (dates : list (string * write_outcome))
    (disk : classes_file) :
  dates ≠ [] →
  let '(self', disk') := save_selected_dates self true w dates disk in
  (∀ d, get_date_config self' d = default_config)
  ∧ (∀ d, d ∈ get_all_dates self' ↔ d ∈ dates.*1)
  ∧ (∀ d, validate_config (get_date_config self' d) = (true, ConfigurationValid)).
Proof.
  intros Hne. unfold save_selected_dates.
  destruct dates as [|p dates'] eqn:Hdates; [done|]. rewrite <- Hdates.
  clear Hne Hdates.
  assert (∀ disk0, ∀ d,
            configurations (set_empty_configs (mkManager ∅) dates disk0).1 !! d
            = if bool_decide (d ∈ dates.*1) then Some default_config else None)
    as Hlookup.
  { intros disk0 d. rewrite set_empty_configs_lookup. cbn [configurations].
    by rewrite lookup_empty. }
  unfold clear_configurations.
  assert (∀ disk0,
            let '(self', disk') := set_empty_configs (mkManager ∅) dates disk0 in
            (∀ d, get_date_config self' d = default_config)
            ∧ (∀ d, d ∈ get_all_dates self' ↔ d ∈ dates.*1)
            ∧ (∀ d, validate_config (get_date_config self' d)
                    = (true, ConfigurationValid))) as Hgoal.
  { intros disk0. specialize (Hlookup disk0).
    destruct (set_empty_configs (mkManager ∅) dates disk0) as [self' disk'].
    cbn [fst] in Hlookup.
    assert (∀ d, get_date_config self' d = default_config) as Hget.
    { intros d. unfold get_date_config. rewrite Hlookup.
      by destruct (bool_decide (d ∈ dates.*1)). }
    split; [exact Hget|]. split.
    - intros d. rewrite get_all_dates_elem, Hlookup.
      destruct (bool_decide (d ∈ dates.*1)) eqn:Hd.
      + apply bool_decide_eq_true in Hd. split; [done|]. by eexists.
      + apply bool_decide_eq_false in Hd. split; [|done].
        by intros [? ?].
    - intros d. rewrite Hget. apply validate_default. }
  destruct w; cbn [save_configurations]; apply Hgoal.
Qed.

Lemma dict_get_has (k : string) (v : json) (d : list (string * json)) :
  dict_get k d = Some v → dict_has k d = true.
Proof.
  intros Hget. apply bool_decide_eq_true.
  induction d as [|[k0 v0] d IH]; [done|]. simpl in *.
  destruct (decide (k0 = k)) as [->|Hne]; [left | right; auto].
Qed.

Lemma validate_with_rooms (rs : list Engine.RoomRequirement)
    (d : list (string * json)) :
  dict_get "settings" d = Some empty_settings →
  validate_config (JDict (dict_set "rooms" (JList (room_json <$> rs)) d))
    = (true, ConfigurationValid).
Proof.
  intros Hsettings. unfold validate_config.
  rewrite dict_has_set_eq, dict_has_set_ne by done.
  rewrite (dict_get_has _ _ _ Hsettings).
  rewrite dict_get_set_eq, dict_get_set_ne by done. rewrite Hsettings.
  cbn [negb py_iter]. by rewrite check_rooms_room_json.
Qed.

(** X18. Configuring a date that has no configuration yet, or whose stored
    configuration is a dict, does not raise; the configuration stored for the
    date afterwards passes [validate_config], holds the selected classes as
    its rooms (in the order of the modifiers) and the empty settings. *)
Theorem configured_date_validates (self : ConfigurationManager)
    (class_modifiers : list (string * Modifiers)) (date : string)
    (w : write_outcome) (disk : classes_file) :
  (configurations self !! date = None
   ∨ ∃ d, configurations self !! date = Some (JDict d)) →
  ∃ self' disk' d',
    configure_date self class_modifiers date w disk = Some (self', disk')
    ∧ get_date_config self' date = JDict d'
    ∧ validate_config (JDict d') = (true, ConfigurationValid)
    ∧ dict_get "rooms" d'
      = Some (JList (room_json <$> selected_rooms class_modifiers))
    ∧ dict_get "settings" d' = Some empty_settings.
Proof.
  intros Hstored.
  assert (∃ d1, (if truthy (get_date_config self date)
                 then set_item "settings" empty_settings (get_date_config self date)
                 else Some (JDict [("rooms", JList []); ("settings", empty_settings)]))
                = Some (JDict d1)
                ∧ dict_get "settings" d1 = Some empty_settings) as (d1 & Hd1 & Hs).
  { unfold get_date_config. destruct Hstored as [->|[d ->]]; cbn [default].
    - eexists. split; reflexivity.
    - destruct d as [|p d]; cbn [truthy set_item].
      + eexists. split; reflexivity.
      + eexists. split; [reflexivity|]. apply dict_get_set_eq. }
  unfold configure_date. rewrite Hd1. cbn [set_item].
  set (d' := dict_set "rooms"
               (JList (room_json <$> selected_rooms class_modifiers)) d1).
  assert (get_date_config (mkManager (<[date := JDict d']> (configurations self)))
            date = JDict d') as Hget.
  { unfold get_date_config. cbn [configurations]. by rewrite lookup_insert_eq. }
  unfold set_date_config.
  destruct w; cbn [save_configurations]; eexists _, _, d';
    (split; [reflexivity|]); (split; [exact Hget|]);
    (split; [by apply validate_with_rooms|]);
    (split; [apply dict_get_set_eq|]);
    unfold d'; by rewrite dict_get_set_ne.
Qed.

(** X19. The settings [generate_both] stores lack the key [exam_details]:
    whenever its step for a date does not raise, the configuration the store
    returns for that date afterwards fails [validate_config]. *)
Theorem exam_details_fail_validation (self : ConfigurationManager)
    (assessment_name exam_time reporting_time date : string)
    (w : write_outcome) (disk : classes_file)
    (self' : ConfigurationManager) (disk' : classes_file) :
  apply_exam_details self assessment_name exam_time reporting_time date w disk
    = Some (self', disk') →
  (validate_config (get_date_config self' date)).1 = false.
Proof.
  unfold apply_exam_details.
  destruct (truthy (get_date_config self date)) eqn:Htruthy.
  - destruct (get_date_config self date) as [| | | | |d]; try done.
    cbn [set_item]. unfold set_date_config. intros Hrun.
    assert (get_date_config self' date =
            JDict (dict_set "settings"
                     (JDict [("assessment_name", JStr assessment_name);
                             ("exam_time", JStr exam_time);
                             ("reporting_time", JStr reporting_time)]) d)) as ->.
    { destruct w; cbn [save_configurations] in Hrun; injection Hrun as <- _;
        unfold get_date_config; cbn [configurations];
        by rewrite lookup_insert_eq. }
    unfold validate_config.
    rewrite dict_has_set_eq, dict_get_set_eq.
    rewrite dict_has_set_ne, dict_get_set_ne by done.
    destruct (dict_has "rooms" d); [|done]. cbn [negb].
    destruct (dict_get "rooms" d) as [rooms|]; [|done].
    destruct (py_iter rooms) as [rs|]; [|done].
    by destruct (check_rooms rs) as [[room|]|].
  - intros [= <- _].
    destruct (get_date_config self date) as [|b|n|s|l|d]; try done.
    by destruct d.
Qed.

Lemma check_rooms_passed (rs : list json) :
  check_rooms rs = Some None →
  Forall (λ room, all_in ["room_no"; "girls_only"; "single_staff"] room
                  = Some true) rs.
Proof.
  induction rs as [|room rs IH]; intros Hcheck; [constructor|].
  cbn [check_rooms] in Hcheck.
  destruct (all_in _ room) as [[|]|] eqn:Hroom; [|done..].
  constructor; [done | by apply IH].
Qed.

(** X20. A configuration passes [validate_config] only if it is a dict with
    the keys [rooms] and [settings], every room of [rooms] is a container
    with the three room keys, and [settings] has the four setting keys; the
    message is then "Configuration is valid".  In particular nothing but a
    dict ever passes. *)
Theorem valid_configurations_are_complete (config : json) (m : message) :
  validate_config config = (true, m) →
  m = ConfigurationValid
  ∧ ∃ d rooms settings rs,
      config = JDict d
      ∧ dict_get "rooms" d = Some rooms
      ∧ dict_get "settings" d = Some settings
      ∧ py_iter rooms = Some rs
      ∧ Forall (λ room, all_in ["room_no"; "girls_only"; "single_staff"] room
                        = Some true) rs
      ∧ all_in required_settings settings = Some true.
Proof.
  unfold validate_config. destruct config as [| | | | |d]; try done.
  destruct (dict_has "rooms" d); [|done].
  destruct (dict_has "settings" d); [|done]. cbn [negb].
  destruct (dict_get "rooms" d) as [rooms|] eqn:Hr; [|done].
  destruct (dict_get "settings" d) as [settings|] eqn:Hs; [|done].
  destruct (py_iter rooms) as [rs|] eqn:Hiter; [|done].
  destruct (check_rooms rs) as [[room|]|] eqn:Hrooms; [done| |done].
  destruct (all_in required_settings settings) as [[|]|] eqn:Hsettings;
    [|done..].
  intros [= <-]. split; [done|].
  exists d, rooms, settings, rs. repeat split; try done.
  by apply check_rooms_passed.
Qed.

Lemma selected_rooms_cons (class_name : string) (m : Modifiers)
    (rest : list (string * Modifiers)) :
  selected_rooms ((class_name, m) :: rest) =
    if selected m
    then Engine.mkRoom class_name (girls_only_mod m) (single_staff_mod m)
         :: selected_rooms rest
    else selected_rooms rest.
Proof. unfold selected_rooms. simpl. by destruct (selected m). Qed.

Lemma count_selected_sums (class_modifiers : list (string * Modifiers))
    (total female : Z) :
  count_selected class_modifiers total female =
    ((total + Aggregator.total_required_of (selected_rooms class_modifiers))%Z,
     (female + Aggregator.female_required_of (selected_rooms class_modifiers))%Z).
Proof.
  revert total female.
  induction class_modifiers as [|[class_name m] rest IH]; intros total female.
  - cbn. by rewrite !Z.add_0_r.
  - cbn [count_selected]. rewrite selected_rooms_cons.
    destruct (selected m); [|apply IH].
    unfold Aggregator.total_required_of.
    rewrite female_required_cons, sum_headcount_cons.
    unfold Aggregator.headcount. cbn [Engine.single_staff Engine.girls_only].
    destruct (single_staff_mod m), (girls_only_mod m); rewrite IH;
      unfold Aggregator.total_required_of; f_equal; lia.
Qed.

(** X21. The numbers [update_requirements] writes to the labels are the
    aggregate of exactly the rooms [save_configuration] stores for the
    selected classes: the total head count, the head count of the girls-only
    rooms and their difference; the three always satisfy
    [male_pos + female_req = total_req]. *)
Theorem update_requirements_counts_selected_rooms
    (class_modifiers : list (string * Modifiers)) :
  update_requirements class_modifiers =
    (Aggregator.total_required_of (selected_rooms class_modifiers),
     Aggregator.female_required_of (selected_rooms class_modifiers),
     (Aggregator.total_required_of (selected_rooms class_modifiers)
      - Aggregator.female_required_of (selected_rooms class_modifiers))%Z)
  ∧ match update_requirements class_modifiers with
    | (total_req, female_req, male_pos) =>
        (male_pos + female_req = total_req)%Z
    end.
Proof.
  unfold update_requirements. rewrite count_selected_sums, !Z.add_0_l.
  split; [done | lia].
Qed.

End WorkflowFacts.

(** * The pages and the engine together *)

Section PagesAndEngine.

Import Directory Workflow.

Variable shuffle : list Staff → list Staff.
Hypothesis shuffle_perm : ∀ l, shuffle l ≡ₚ l.

Lemma female_required_girls_first (girls others : list RoomRequirement) :
  Forall (λ r, girls_only r = true) girls →
  Forall (λ r, girls_only r = false) others →
  Aggregator.female_required_of (girls ++ others)
    = Z.of_nat (sum_list (required_count <$> girls)).
Proof.
  intros Hg Ho. rewrite <- total_required_sum.
  unfold Aggregator.female_required_of, Aggregator.total_required_of. f_equal.
  rewrite filter_app.
  assert (filter (λ r, girls_only r = true) others = []) as ->.
  { induction Ho as [|r l Hr Hl IH]; [done|].
    rewrite filter_cons_False; [done | by rewrite Hr]. }
  rewrite app_nil_r.
  induction Hg as [|r l Hr Hl IH]; [done|].
  rewrite filter_cons_True by done. by f_equal.
Qed.

(** X22. The numbers on the configuration page settle the outcome when the
    girls-only classes are listed first: if the required female count does
    not exceed the female count shown, and the required total does not
    exceed the available count shown, then allocating for the selected
    classes gives every one of them an assignment with all the staff it
    asks for. *)
Theorem shown_numbers_guarantee_full_staffing (file : excluded_file)
    (excluded : gset string) (staff_list : list Staff)
    (class_modifiers : list (string * Modifiers))
    (girls others : list RoomRequirement) (date : string) :
  exclusion_set file = Some excluded →
  selected_rooms class_modifiers = girls ++ others →
  Forall (λ r, girls_only r = true) girls →
  Forall (λ r, girls_only r = false) others →
  match update_requirements class_modifiers,
        staff_counters (Some staff_list) file with
  | (total_req, female_req, _), (_, available_staff, female_staff, _) =>
      (female_req ≤ Z.of_nat female_staff)%Z
      ∧ (total_req ≤ Z.of_nat available_staff)%Z
  end →
  ∃ allotments,
    allocate_staff shuffle file staff_list (selected_rooms class_modifiers) date
      = Ok allotments
    ∧ Forall2 well_staffed allotments (selected_rooms class_modifiers).
Proof.
  intros Hfile Hsplit Hg Ho.
  rewrite (staff_counters_eq _ _ _ Hfile).
  unfold update_requirements. rewrite count_selected_sums, !Z.add_0_l.
  rewrite Hsplit, (female_required_girls_first _ _ Hg Ho), total_required_sum.
  intros [Hfemale Htotal].
  eexists. split; [by apply allocate_staff_run|].
  apply greedy_fills_every_room; [done..| |].
  - unfold women in *. rewrite shuffle_perm. lia.
  - rewrite shuffle_perm. lia.
Qed.

End PagesAndEngine.

(** ** The added properties on sample values *)

Example upload_sample_workbook :
  Directory.upload_staff_file sample_workbook =
    Some [mkStaff "Anita" "CSE" "F"; mkStaff "Bala" "CSE" "M"].
Proof. vm_compute. reflexivity. Qed.

Example validate_accepts_strings_as_containers :
  ConfigQueries.validate_config
    (ConfigStore.JDict
       [("rooms", ConfigStore.JStr "");
        ("settings",
         ConfigStore.JStr "reporting_time assessment_name exam_time exam_details")])
  = (true, ConfigQueries.ConfigurationValid).
Proof. vm_compute. reflexivity. Qed.

Lemma uploaded_staff_are_normalised_witness :
  Directory.upload_staff_file sample_workbook =
    Some [mkStaff "Anita" "CSE" "F"; mkStaff "Bala" "CSE" "M"]
  ∧ Forall normalised [mkStaff "Anita" "CSE" "F"; mkStaff "Bala" "CSE" "M"].
Proof.
  assert (Directory.upload_staff_file sample_workbook =
            Some [mkStaff "Anita" "CSE" "F"; mkStaff "Bala" "CSE" "M"]) as Hup.
  { vm_compute. reflexivity. }
  split; [exact Hup|].
  destruct (uploaded_staff_are_normalised sample_workbook _ Hup) as [_ H].
  exact H.
Defined.

Lemma uploaded_statistics_add_up_witness :
  Directory.upload_staff_file sample_workbook =
    Some [mkStaff "Anita" "CSE" "F"; mkStaff "Bala" "CSE" "M"]
  ∧ Directory.get_staff_statistics
      (Some [mkStaff "Anita" "CSE" "F"; mkStaff "Bala" "CSE" "M"]) = (2, 1, 1).
Proof.
  assert (Directory.upload_staff_file sample_workbook =
            Some [mkStaff "Anita" "CSE" "F"; mkStaff "Bala" "CSE" "M"]) as Hup.
  { vm_compute. reflexivity. }
  split; [exact Hup|].
  pose proof (uploaded_statistics_add_up sample_workbook _ Hup) as H.
  destruct (Directory.get_staff_statistics _) as [[t f] m].
  destruct H as (Ht & Hsum & Hf). vm_compute in Ht, Hf. subst t f.
  assert (m = 1) as -> by lia. reflexivity.
Defined.

Lemma counters_describe_the_pool_witness :
  exclusion_set (FileNames ["A"]) = Some (list_to_set ["A"])
  ∧ Directory.staff_counters (Some [staff_A; staff_B; staff_C]) (FileNames ["A"])
    = (3, 2, 1, 1).
Proof.
  split; [reflexivity|].
  pose proof (counters_describe_the_pool (FileNames ["A"]) (list_to_set ["A"])
                [staff_A; staff_B; staff_C] eq_refl) as H.
  destruct (Directory.staff_counters _ _) as [[[t a] f] m] eqn:Hc.
  vm_compute in Hc. injection Hc as <- <- <- <-. reflexivity.
Defined.

Lemma toggle_flips_one_name_witness :
  NoDup ["A"; "C"]
  ∧ ∃ names',
      Directory.toggle_staff_allotment "B" ConfigStore.WriteCompletes
        (Directory.StoreJson
           (ConfigStore.JList (ConfigStore.JStr <$> ["A"; "C"])))
      = (Some tt,
         Directory.StoreJson (ConfigStore.JList (ConfigStore.JStr <$> names')))
      ∧ NoDup names'.
Proof.
  assert (NoDup ["A"; "C"]) as Hnd
    by (apply (bool_decide_unpack _); vm_compute; exact I).
  split; [exact Hnd|].
  destruct (toggle_flips_one_name "B" ["A"; "C"] Hnd)
    as (names' & Hrun & Hnd' & _).
  exists names'. split; [exact Hrun | exact Hnd'].
Defined.

Lemma toggle_twice_restores_witness :
  NoDup ["A"; "B"; "C"]
  ∧ ∃ names' names'',
      Directory.toggle_staff_allotment "B" ConfigStore.WriteCompletes
        (Directory.StoreJson
           (ConfigStore.JList (ConfigStore.JStr <$> ["A"; "B"; "C"])))
      = (Some tt,
         Directory.StoreJson (ConfigStore.JList (ConfigStore.JStr <$> names')))
      ∧ Directory.toggle_staff_allotment "B" ConfigStore.WriteCompletes
          (Directory.StoreJson
             (ConfigStore.JList (ConfigStore.JStr <$> names')))
        = (Some tt,
           Directory.StoreJson (ConfigStore.JList (ConfigStore.JStr <$> names'')))
      ∧ names'' ≡ₚ ["A"; "B"; "C"].
Proof.
  assert (NoDup ["A"; "B"; "C"]) as Hnd
    by (apply (bool_decide_unpack _); vm_compute; exact I).
  split; [exact Hnd|].
  destruct (toggle_twice_restores "B" ["A"; "B"; "C"] Hnd)
    as (names' & names'' & H1 & H2 & Hp & _).
  exists names', names''. split; [exact H1|]. split; [exact H2 | exact Hp].
Defined.

Lemma toggled_name_is_never_assigned_witness :
  (∀ l : list Staff, id l ≡ₚ l)
  ∧ (sample_exclusions = Directory.StoreAbsent
     ∨ sample_exclusions = Directory.StoreGarbled
     ∨ ∃ l, sample_exclusions = Directory.StoreJson (ConfigStore.JList l)
            ∧ existsb (Directory.is_name "B") l = false)
  ∧ Directory.toggle_staff_allotment "B" ConfigStore.WriteCompletes
      sample_exclusions
    = (Some tt,
       Directory.StoreJson
         (ConfigStore.JList [ConfigStore.JStr "A"; ConfigStore.JStr "B"]))
  ∧ allocate_staff id
      (Directory.list_as_engine_reads
         [ConfigStore.JStr "A"; ConfigStore.JStr "B"])
      [staff_A; staff_B; staff_C] [room_102] "2024-05-01"
    = Ok [mkAssignment "102" [staff_C]].
Proof.
  assert (sample_exclusions = Directory.StoreAbsent
          ∨ sample_exclusions = Directory.StoreGarbled
          ∨ ∃ l, sample_exclusions = Directory.StoreJson (ConfigStore.JList l)
                 ∧ existsb (Directory.is_name "B") l = false) as Hstore.
  { right. right. exists [ConfigStore.JStr "A"]. split; reflexivity. }
  split; [intros l; reflexivity|]. split; [exact Hstore|].
  destruct (toggled_name_is_never_assigned id id_perm "B" sample_exclusions
              [staff_A; staff_B; staff_C] [room_102] "2024-05-01" Hstore)
    as (l' & Htoggle & _ & _).
  split; [|vm_compute; reflexivity].
  pose proof Htoggle as Hl'. vm_compute in Hl'. injection Hl' as Hl'.
  rewrite Htoggle.
  apply (f_equal (λ x, (Some tt, Directory.StoreJson (ConfigStore.JList x)))).
  symmetry. exact Hl'.
Defined.

Example toggle_raises_on_null :
  Directory.toggle_staff_allotment "B" ConfigStore.WriteCompletes
    (Directory.StoreJson ConfigStore.JNull)
  = (None, Directory.StoreJson ConfigStore.JNull).
Proof. reflexivity. Qed.

Example toggle_keeps_a_nested_list_unreadable :
  Directory.toggle_staff_allotment "B" ConfigStore.WriteCompletes
    (Directory.StoreJson
       (ConfigStore.JList [ConfigStore.JList [ConfigStore.JStr "A"]]))
  = (Some tt,
     Directory.StoreJson
       (ConfigStore.JList [ConfigStore.JList [ConfigStore.JStr "A"];
                           ConfigStore.JStr "B"]))
  ∧ Directory.list_as_engine_reads
      [ConfigStore.JList [ConfigStore.JStr "A"]; ConfigStore.JStr "B"]
    = FileUnreadable.
Proof. split; reflexivity. Qed.

Lemma overwriting_keeps_the_dates_witness :
  is_Some (ConfigStore.configurations sample_store !! "2024-05-01")
  ∧ ConfigQueries.get_all_dates
      (ConfigStore.set_date_config sample_store "2024-05-01"
         ConfigStore.default_config ConfigStore.WriteRefused
         ConfigStore.FilePartial).1.2
    = ConfigQueries.get_all_dates sample_store.
Proof.
  assert (is_Some (ConfigStore.configurations sample_store !! "2024-05-01"))
    as Hset by (vm_compute; eexists; reflexivity).
  split; [exact Hset|].
  destruct (overwriting_keeps_the_dates sample_store "2024-05-01"
              ConfigStore.default_config ConfigStore.WriteRefused
              ConfigStore.FilePartial Hset) as [H _].
  exact H.
Defined.

Lemma selecting_dates_resets_the_store_witness :
  [("2024-05-03", ConfigStore.WriteCompletes)] ≠ []
  ∧ ConfigStore.get_date_config
      (Workflow.save_selected_dates sample_store true ConfigStore.WriteRefused
         [("2024-05-03", ConfigStore.WriteCompletes)] ConfigStore.FilePartial).1
      "2024-05-01"
    = ConfigStore.default_config.
Proof.
  assert ([("2024-05-03", ConfigStore.WriteCompletes)] ≠ []) as Hne by done.
  split; [exact Hne|].
  pose proof (selecting_dates_resets_the_store sample_store
                ConfigStore.WriteRefused
                [("2024-05-03", ConfigStore.WriteCompletes)]
                ConfigStore.FilePartial Hne) as H.
  destruct (Workflow.save_selected_dates _ _ _ _ _) as [self' disk'].
  destruct H as [H _]. exact (H "2024-05-01").
Defined.

Lemma configured_date_validates_witness :
  (ConfigStore.configurations sample_store !! "2024-05-02" = None
   ∨ ∃ d, ConfigStore.configurations sample_store !! "2024-05-02"
          = Some (ConfigStore.JDict d))
  ∧ ∃ self' disk' d',
      Workflow.configure_date sample_store sample_modifiers "2024-05-02"
        ConfigStore.WriteCompletes ConfigStore.FilePartial = Some (self', disk')
      ∧ ConfigStore.get_date_config self' "2024-05-02" = ConfigStore.JDict d'
      ∧ ConfigQueries.validate_config (ConfigStore.JDict d')
        = (true, ConfigQueries.ConfigurationValid).
Proof.
  assert (ConfigStore.configurations sample_store !! "2024-05-02" = None
          ∨ ∃ d, ConfigStore.configurations sample_store !! "2024-05-02"
                 = Some (ConfigStore.JDict d)) as Hstored
    by (left; vm_compute; reflexivity).
  split; [exact Hstored|].
  destruct (configured_date_validates sample_store sample_modifiers
              "2024-05-02" ConfigStore.WriteCompletes ConfigStore.FilePartial
              Hstored) as (self' & disk' & d' & Hrun & Hget & Hvalid & _).
  exists self', disk', d'. split; [exact Hrun|]. split; [exact Hget | exact Hvalid].
Defined.

Lemma exam_details_fail_validation_witness :
  ∃ self' disk',
    Workflow.apply_exam_details sample_store "CAT 1" "FN" "09:00" "2024-05-01"
      ConfigStore.WriteCompletes ConfigStore.FilePartial = Some (self', disk')
    ∧ (ConfigQueries.validate_config
         (ConfigStore.get_date_config self' "2024-05-01")).1 = false.
Proof.
  destruct (Workflow.apply_exam_details sample_store "CAT 1" "FN" "09:00"
              "2024-05-01" ConfigStore.WriteCompletes ConfigStore.FilePartial)
    as [[self' disk']|] eqn:Hrun; [|vm_compute in Hrun; discriminate Hrun].
  exists self', disk'. split; [reflexivity|].
  exact (exam_details_fail_validation sample_store "CAT 1" "FN" "09:00"
           "2024-05-01" ConfigStore.WriteCompletes ConfigStore.FilePartial
           self' disk' Hrun).
Defined.

Lemma valid_configurations_are_complete_witness :
  ConfigQueries.validate_config sample_config
    = (true, ConfigQueries.ConfigurationValid)
  ∧ ∃ d, sample_config = ConfigStore.JDict d.
Proof.
  assert (ConfigQueries.validate_config sample_config
            = (true, ConfigQueries.ConfigurationValid)) as Hvalid
    by (vm_compute; reflexivity).
  split; [exact Hvalid|].
  destruct (valid_configurations_are_complete sample_config _ Hvalid)
    as (_ & d & _ & _ & _ & Hd & _).
  exists d. exact Hd.
Defined.

Lemma shown_numbers_guarantee_full_staffing_witness :
  (∀ l : list Staff, id l ≡ₚ l)
  ∧ exclusion_set FileAbsent = Some ∅
  ∧ Workflow.selected_rooms sample_modifiers = [room_100] ++ [room_102]
  ∧ ∃ allotments,
      allocate_staff id FileAbsent [staff_A; staff_B; staff_C]
        (Workflow.selected_rooms sample_modifiers) "2024-05-01" = Ok allotments
      ∧ Forall2 well_staffed allotments (Workflow.selected_rooms sample_modifiers).
Proof.
  assert (Workflow.selected_rooms sample_modifiers = [room_100] ++ [room_102])
    as Hsplit by reflexivity.
  split; [intros l; reflexivity|]. split; [reflexivity|].
  split; [exact Hsplit|].
  apply (shown_numbers_guarantee_full_staffing id id_perm FileAbsent ∅
           [staff_A; staff_B; staff_C] sample_modifiers [room_100] [room_102]
           "2024-05-01" eq_refl Hsplit).
  - repeat constructor.
  - repeat constructor.
  - vm_compute. split; discriminate.
Defined.
